(** * examples/awa.ipynb: the Zero-Shot Learning notebook

    The notebook is glue code: every interesting computation is a call into
    [torch], [torchvision] or the [zsl] package, and none of these is part
    of the notebook.  The development models the code cells of the
    notebook, in document order, as programs over the external operations
    they perform ([Python], [Notebook]).  A program is run against an
    arbitrary external world; the run yields a result (a value or the
    exception that escaped), the final world and the trace of external
    operations with their responses.  What the libraries compute is left
    to the world: the statements are about which operations the notebook
    performs, in which order, on which arguments, and where those
    arguments come from.

    [Observe], [NotebookViews], [History] and [NotebookChecks] define what
    is observed of a run; [RunFacts], [HistoryFacts], [NotebookFacts] and
    [NotebookFlow] hold the lemmas; the statements are in [NotebookSpec]
    and [NotebookMore]. *)

From Stdlib Require Import List String ZArith Lia Bool Arith.
From Stdlib Require DecimalString.
Import ListNotations.

Local Open Scope string_scope.
Local Open Scope list_scope.

(** ** Python values, exceptions and external operations *)

Module Python.

(** A Python object as the notebook sees it: the literals it writes, the
    tuples and lists it builds or unpacks, a global name used as a value
    (a function passed as an argument) and a reference to an object owned
    by an external library.  [OFloat m k] is the float literal m * 10^k. *)
#[warnings="-register-all"]
Inductive Obj : Type :=
| ONone
| OBool (b : bool)
| OInt (z : Z)
| OFloat (mantissa exponent : Z)
| OStr (s : string)
| OTuple (items : list Obj)
| OList (items : list Obj)
| OGlobal (qualified_name : string)
| ORef (id : nat).

Definition Kwargs : Type := list (string * Obj).

Record Exn : Type := mkExn { exn_class : string; exn_msg : string }.

(** The operations the notebook performs on the outside world.  A call to a
    library function or constructor is named as the notebook writes it
    ([zsl.engine.train_epoch]); [o.m(args)] is [EMethod]; [o(args)] is
    [EApply].  [EIter o] exhausts the iterable [o]: its response is the
    sequence of the items. *)
Inductive Event : Type :=
| EImport (module : string)
| ECall (callee : string) (args : list Obj) (kwargs : Kwargs)
| EApply (callee : Obj) (args : list Obj) (kwargs : Kwargs)
| EMethod (self : Obj) (name : string) (args : list Obj) (kwargs : Kwargs)
| EGetAttr (self : Obj) (name : string)
| EGetItem (self : Obj) (index : Obj)
| EIter (iterable : Obj)
| ETruth (self : Obj).

Definition Response : Type := (Exn + Obj)%type.
Definition Trace : Type := list (Event * Response).

(** Programs: return, raise, perform an external operation and continue
    with its response, or run a body under a [try]/[except] and continue
    with the value of whichever of body and handler completed. *)
Inductive Prog : Type -> Type :=
| Ret {R} (r : R) : Prog R
| Raise {R} (x : Exn) : Prog R
| Do {R} (e : Event) (k : Obj -> Prog R) : Prog R
| TryExcept {A R} (body : Prog A) (handler : Exn -> Prog A)
    (k : A -> Prog R) : Prog R.

Fixpoint bind {A B} (p : Prog A) (f : A -> Prog B) : Prog B :=
  match p in Prog T return (T -> Prog B) -> Prog B with
  | Ret a => fun f => f a
  | Raise x => fun _ => Raise x
  | Do e k => fun f => Do e (fun v => bind (k v) f)
  | TryExcept body h k => fun f => TryExcept body h (fun a => bind (k a) f)
  end f.

Declare Scope py_scope.
Delimit Scope py_scope with py.
Notation "x <- p ;; q" := (bind p (fun x => q))
  (at level 61, p at next level, right associativity) : py_scope.
Notation "' pat <- p ;; q" := (bind p (fun x => match x with pat => q end))
  (at level 61, pat pattern, p at next level, right associativity) : py_scope.
Notation "p ;; q" := (bind p (fun _ => q))
  (at level 61, right associativity) : py_scope.
Local Open Scope py_scope.

Definition perform (e : Event) : Prog Obj := Do e Ret.

Definition import (module : string) : Prog Obj := perform (EImport module).
Definition call (f : string) (args : list Obj) (kw : Kwargs) : Prog Obj :=
  perform (ECall f args kw).
Definition apply (f : Obj) (args : list Obj) : Prog Obj :=
  perform (EApply f args []).
Definition method (o : Obj) (m : string) (args : list Obj) : Prog Obj :=
  perform (EMethod o m args []).
Definition getattr (o : Obj) (a : string) : Prog Obj := perform (EGetAttr o a).
Definition getitem (o i : Obj) : Prog Obj := perform (EGetItem o i).
Definition print (args : list Obj) : Prog Obj := call "print" args [].

(** *** What the interpreter itself does *)

Definition TypeError (msg : string) : Exn := mkExn "TypeError" msg.
Definition ValueError (msg : string) : Exn := mkExn "ValueError" msg.

Definition chars (s : string) : list Obj :=
  map (fun c => OStr (String c EmptyString)) (list_ascii_of_string s).

(** The items of an iterable.  Tuples, lists and strings are walked by the
    interpreter; numbers and [None] are not iterable; anything else is
    asked. *)
Definition iterate (o : Obj) : Prog (list Obj) :=
  match o with
  | OTuple l | OList l => Ret l
  | OStr s => Ret (chars s)
  | ONone | OBool _ | OInt _ | OFloat _ _ =>
      Raise (TypeError "object is not iterable")
  | OGlobal _ | ORef _ =>
      r <- perform (EIter o) ;;
      match r with
      | OTuple l | OList l => Ret l
      | _ => Raise (TypeError "iter() returned non-iterator")
      end
  end.

Definition decimal (n : nat) : string :=
  DecimalString.NilEmpty.string_of_uint (Nat.to_uint n).

Definition unpack_error {R} (expected got : nat) : Prog R :=
  if (got <? expected)%nat
  then Raise (ValueError ("not enough values to unpack (expected " ++
                decimal expected ++ ", got " ++ decimal got ++ ")"))
  else Raise (ValueError ("too many values to unpack (expected " ++
                decimal expected ++ ")")).

(** [a, b = o] *)
Definition unpack2 (o : Obj) : Prog (Obj * Obj) :=
  items <- iterate o ;;
  match items with
  | [a; b] => Ret (a, b)
  | _ => unpack_error 2 (List.length items)
  end.

(** [a, b, c = o] *)
Definition unpack3 (o : Obj) : Prog (Obj * Obj * Obj) :=
  items <- iterate o ;;
  match items with
  | [a; b; c] => Ret (a, b, c)
  | _ => unpack_error 3 (List.length items)
  end.

(** Truth value of an object in a condition. *)
Definition truth (o : Obj) : Prog bool :=
  match o with
  | ONone => Ret false
  | OBool b => Ret b
  | OInt z => Ret (negb (z =? 0)%Z)
  | OFloat m _ => Ret (negb (m =? 0)%Z)
  | OStr s => Ret (negb (s =? "")%string)
  | OTuple l | OList l => Ret (negb (List.length l =? 0)%nat)
  | OGlobal _ | ORef _ =>
      r <- perform (ETruth o) ;;
      match r with
      | OBool b => Ret b
      | _ => Raise (TypeError "__bool__ should return bool")
      end
  end.

(** [range(n)] *)
Definition range (n : Z) : list Z := map Z.of_nat (seq 0 (Z.to_nat n)).

(** [for x in xs: body] (the notebook uses neither [break] nor
    [continue]). *)
Fixpoint for_ {A} (xs : list A) (body : A -> Prog unit) : Prog unit :=
  match xs with
  | [] => Ret tt
  | x :: rest => body x ;; for_ rest body
  end.

(** [[x for x in xs if cond(x)]] *)
Fixpoint comprehension_if (xs : list Obj) (cond : Obj -> Prog bool)
  : Prog (list Obj) :=
  match xs with
  | [] => Ret []
  | x :: rest =>
      b <- cond x ;;
      kept <- comprehension_if rest cond ;;
      Ret (if b then x :: kept else kept)
  end.

(** *** Running a program against an external world *)

Record Outcome (W R : Type) : Type := mkOutcome {
  result : Exn + R;
  world : W;
  trace : Trace
}.
Arguments mkOutcome {W R}.
Arguments result {W R}.
Arguments world {W R}.
Arguments trace {W R}.

Definition External (W : Type) : Type := Event -> W -> Response * W.

Definition after {W R} (t : Trace) (o : Outcome W R) : Outcome W R :=
  mkOutcome (result o) (world o) (t ++ trace o).

Fixpoint run {W R} (ext : External W) (p : Prog R) (w : W) : Outcome W R :=
  match p with
  | Ret r => mkOutcome (inr r) w []
  | Raise x => mkOutcome (inl x) w []
  | Do e k =>
      match ext e w with
      | (inl x, w1) => mkOutcome (inl x) w1 [(e, inl x)]
      | (inr v, w1) => after [(e, inr v)] (run ext (k v) w1)
      end
  | TryExcept body h k =>
      let o1 := run ext body w in
      match result o1 with
      | inr a => after (trace o1) (run ext (k a) (world o1))
      | inl x =>
          let o2 := run ext (h x) (world o1) in
          match result o2 with
          | inr a =>
              after (trace o1 ++ trace o2) (run ext (k a) (world o2))
          | inl y => mkOutcome (inl y) (world o2) (trace o1 ++ trace o2)
          end
      end
  end.

(** Running [p] and then [f]: the exception of [p] escapes, or [f] runs in
    the world [p] left and the traces follow each other. *)
Definition then_run {W A B} (ext : External W) (o : Outcome W A)
  (f : A -> Prog B) : Outcome W B :=
  match result o with
  | inl x => mkOutcome (inl x) (world o) (trace o)
  | inr a => after (trace o) (run ext (f a) (world o))
  end.

(** A program that contains no [try]/[except], whatever the responses. *)
Inductive handler_free : forall {R}, Prog R -> Prop :=
| hf_ret {R} (r : R) : handler_free (Ret r)
| hf_raise {R} (x : Exn) : handler_free (@Raise R x)
| hf_do {R} (e : Event) (k : Obj -> Prog R) :
    (forall v, handler_free (k v)) -> handler_free (Do e k).

End Python.

(** ** The notebook, cell by cell *)

Module Notebook.
Import Python.
Local Open Scope py_scope.

Definition AwA2 : Obj := OStr "../data/AwA2/Animals_with_Attributes2".

(** Lines 42-49: a feature vector from a pretrained network. *)
Definition cell_feature_vector : Prog unit :=
  import "torch" ;;
  import "torch.nn.functional" ;;
  import "torchvision.models" ;;
  image <- call "torch.randn"
             [OTuple [OInt 1; OInt 3; OInt 224; OInt 224]] [] ;;
  model <- call "zoo.densenet121" [] [("pretrained", OBool true)] ;;
  maps <- method model "features" [image] ;;
  feature_vector <- call "F.adaptive_avg_pool2d"
                      [maps; OTuple [OInt 1; OInt 1]] [] ;;
  flat <- method feature_vector "view" [OInt (-1)] ;;
  size <- method flat "size" [] ;;
  print [OStr "Random image feature vector:"; size] ;;
  Ret tt.

(** Lines 80-85. *)
Definition cell_imports : Prog unit :=
  import "sys" ;;
  import "torch.utils.data" ;;
  call "sys.path.append" [OStr ".."] [] ;;
  import "zsl" ;;
  Ret tt.

(** Line 94: [device]. *)
Definition cell_device : Prog Obj :=
  available <- call "torch.cuda.is_available" [] [] ;;
  cuda <- truth available ;;
  call "torch.device" [OStr (if cuda then "cuda" else "cpu")] [].

(** Lines 103-106: [fe] and [ds]. *)
Definition cell_dataset : Prog (Obj * Obj) :=
  let fe := OStr "ResNet101" in
  ds <- call "zsl.data.AwAFeaturesDataset" [AwA2] [("features_type", fe)] ;;
  Ret (fe, ds).

(** Lines 124-126: [features, target, semantic]. *)
Definition cell_sample (ds : Obj) : Prog (Obj * Obj * Obj) :=
  item <- getitem ds (OInt 0) ;;
  '(features, target, semantic) <- unpack3 item ;;
  classes <- getattr ds "classes" ;;
  name <- getitem classes target ;;
  print [name] ;;
  shape <- getattr features "shape" ;;
  print [shape] ;;
  Ret (features, target, semantic).

Definition train_ds_kwargs (fe : Obj) : Kwargs :=
  [("features_type", fe); ("load_unseen", OBool false)].

Definition valid_ds_kwargs (fe : Obj) : Kwargs :=
  [("features_type", fe); ("load_unseen", OBool true);
   ("load_only_unseen", OBool true)].

Definition train_ds_call (fe : Obj) : Event :=
  ECall "zsl.data.AwAFeaturesDataset" [AwA2] (train_ds_kwargs fe).

Definition valid_ds_call (fe : Obj) : Event :=
  ECall "zsl.data.AwAFeaturesDataset" [AwA2] (valid_ds_kwargs fe).

Definition train_dl_call (train_ds : Obj) : Event :=
  ECall "DataLoader" [train_ds]
    [("shuffle", OBool true); ("batch_size", OInt 64);
     ("collate_fn", OGlobal "zsl.utils.collate_image_folder")].

Definition valid_dl_call (valid_ds : Obj) : Event :=
  ECall "DataLoader" [valid_ds]
    [("batch_size", OInt 32);
     ("collate_fn", OGlobal "zsl.utils.collate_image_folder")].

(** Lines 135-155: [train_ds, valid_ds, train_dl, valid_dl]. *)
Definition cell_loaders (fe : Obj) : Prog (Obj * Obj * Obj * Obj) :=
  train_ds <- perform (train_ds_call fe) ;;
  valid_ds <- perform (valid_ds_call fe) ;;
  train_dl <- perform (train_dl_call train_ds) ;;
  valid_dl <- perform (valid_dl_call valid_ds) ;;
  Ret (train_ds, valid_ds, train_dl, valid_dl).

(** Line 175. *)
Definition cell_lengths (valid_ds train_ds : Obj) : Prog unit :=
  call "len" [valid_ds] [] ;;
  call "len" [train_ds] [] ;;
  Ret tt.

Definition out_features : Z := 1024.

Definition semantic_unit_call (n_attrs : Obj) : Event :=
  ECall "zsl.models.LinearSemanticUnit" []
    [("in_features", n_attrs); ("out_features", OInt out_features)].

Definition visual_fe_call (size : Obj) : Event :=
  ECall "zsl.models.Identity" [size] [].

(** Lines 184-187: [semantic_unit, visual_fe]. *)
Definition cell_modules (train_ds features : Obj) : Prog (Obj * Obj) :=
  attrs <- getattr train_ds "attrs" ;;
  n_attrs <- call "len" [attrs] [] ;;
  semantic_unit <- perform (semantic_unit_call n_attrs) ;;
  size <- method features "size" [OInt 0] ;;
  visual_fe <- perform (visual_fe_call size) ;;
  Ret (semantic_unit, visual_fe).

(** Lines 205-207: rebinds [semantic]. *)
Definition cell_shapes (semantic_unit visual_fe features semantic : Obj)
  : Prog Obj :=
  semantic <- call "torch.FloatTensor" [semantic] [] ;;
  s1 <- method semantic "unsqueeze" [OInt 0] ;;
  repr <- apply semantic_unit [s1] ;;
  size <- method repr "size" [] ;;
  print [OStr "Semantic repr shape:"; size] ;;
  f1 <- method features "unsqueeze" [OInt 0] ;;
  embedding <- apply visual_fe [f1] ;;
  size <- method embedding "size" [] ;;
  print [OStr "Visual embedding shape:"; size] ;;
  Ret semantic.

Definition zs_model_call (visual_fe semantic_unit : Obj) : Event :=
  ECall "zsl.models.ZeroShot" [visual_fe; semantic_unit] [].

(** Lines 227-230: [zs_model]. *)
Definition cell_zero_shot (visual_fe semantic_unit features semantic : Obj)
  : Prog Obj :=
  zs_model <- perform (zs_model_call visual_fe semantic_unit) ;;
  f1 <- method features "unsqueeze" [OInt 0] ;;
  s <- call "torch.FloatTensor" [semantic] [] ;;
  s1 <- method s "unsqueeze" [OInt 0] ;;
  out <- apply zs_model [f1; s1] ;;
  '(image_embed, semantic_embed) <- unpack2 out ;;
  method image_embed "size" [] ;;
  method semantic_embed "size" [] ;;
  Ret zs_model.

(** Line 239. *)
Definition cell_to_device (zs_model device : Obj) : Prog unit :=
  method zs_model "to" [device] ;;
  Ret tt.

(** Lines 259-263: one training batch through the model. *)
Definition cell_batch (zs_model train_dl device : Obj) : Prog unit :=
  it <- call "iter" [train_dl] [] ;;
  batch <- call "next" [it] [] ;;
  '(features, labels, semantics) <- unpack3 batch ;;
  f <- method features "to" [device] ;;
  s <- method semantics "to" [device] ;;
  out <- apply zs_model [f; s] ;;
  '(images_embeds, semantics_embeds) <- unpack2 out ;;
  method images_embeds "size" [] ;;
  method semantics_embeds "size" [] ;;
  Ret tt.

Definition requires_grad (p : Obj) : Prog bool :=
  flag <- getattr p "requires_grad" ;;
  truth flag.

Definition AdamW_call (parameters : list Obj) : Event :=
  ECall "torch.optim.AdamW" [OList parameters; OFloat 1 (-4)]
    [("weight_decay", OFloat 9 (-5))].

(** Lines 272-273: [optimizer].  The generator of [parameters()] is
    exhausted first and the flags are read afterwards, parameter by
    parameter, in the order of the generator. *)
Definition cell_optimizer (zs_model : Obj) : Prog Obj :=
  all <- method zs_model "parameters" [] ;;
  ps <- iterate all ;;
  parameters <- comprehension_if ps requires_grad ;;
  perform (AdamW_call parameters).

Definition train_epoch_call (zs_model train_dl optimizer : Obj) (epoch : Z)
  (device : Obj) : Event :=
  ECall "zsl.engine.train_epoch" []
    [("model", zs_model); ("dl", train_dl); ("optimizer", optimizer);
     ("epoch", OInt epoch); ("print_freq", OInt 300); ("device", device)].

Definition evaluate_call (zs_model valid_dl semantic_repr device : Obj)
  : Event :=
  ECall "zsl.engine.evaluate" []
    [("model", zs_model); ("dl", valid_dl);
     ("class_representations", semantic_repr); ("device", device)].

(** Lines 422-429, for any number of epochs. *)
Definition epoch_loop (epochs : Z)
  (zs_model train_dl valid_dl optimizer device semantic_repr : Obj)
  : Prog unit :=
  for_ (range epochs) (fun epoch =>
    perform (train_epoch_call zs_model train_dl optimizer epoch device) ;;
    perform (evaluate_call zs_model valid_dl semantic_repr device) ;;
    Ret tt).

Definition EPOCHS : Z := 8.

(** Lines 419-429. *)
Definition cell_train
  (zs_model train_dl valid_dl valid_ds optimizer device : Obj) : Prog unit :=
  attr_matrix <- getattr valid_ds "attr_matrix" ;;
  semantic_repr <- call "torch.FloatTensor" [attr_matrix] [] ;;
  epoch_loop EPOCHS zs_model train_dl valid_dl optimizer device semantic_repr.

(** Everything up to the training cell; the names the training cell reads. *)
Definition setup : Prog (Obj * Obj * Obj * Obj * Obj * Obj) :=
  cell_feature_vector ;;
  cell_imports ;;
  device <- cell_device ;;
  '(fe, ds) <- cell_dataset ;;
  '(features, target, semantic) <- cell_sample ds ;;
  '(train_ds, valid_ds, train_dl, valid_dl) <- cell_loaders fe ;;
  cell_lengths valid_ds train_ds ;;
  '(semantic_unit, visual_fe) <- cell_modules train_ds features ;;
  semantic <- cell_shapes semantic_unit visual_fe features semantic ;;
  zs_model <- cell_zero_shot visual_fe semantic_unit features semantic ;;
  cell_to_device zs_model device ;;
  cell_batch zs_model train_dl device ;;
  optimizer <- cell_optimizer zs_model ;;
  Ret (zs_model, train_dl, valid_dl, valid_ds, optimizer, device).

(** The code cells in document order. *)
Definition notebook : Prog unit :=
  '(zs_model, train_dl, valid_dl, valid_ds, optimizer, device) <- setup ;;
  cell_train zs_model train_dl valid_dl valid_ds optimizer device.

(** *** A world in which the notebook runs to its end

    Every operation answers with a fresh reference, except where the
    notebook needs more structure: items and model outputs are tuples,
    [parameters()] yields three parameters of which the second is frozen. *)
Definition nominal : External nat := fun e n =>
  let answer :=
    match e with
    | ECall "torch.cuda.is_available" _ _ => OBool false
    | ECall "next" _ _ => OTuple [ORef n; ORef (n + 1); ORef (n + 2)]
    | ECall "len" _ _ => OInt 85
    | EGetItem _ (OInt 0) => OTuple [ORef n; OInt 7; ORef (n + 1)]
    | EGetItem _ _ => OStr "antelope"
    | EApply _ [_; _] _ => OTuple [ORef n; ORef (n + 1)]
    | EIter _ => OList [ORef n; ORef (n + 1); ORef (n + 2)]
    | EGetAttr (ORef p) "requires_grad" => OBool (negb (p mod 3 =? 1)%nat)
    | _ => ORef n
    end in
  (inr answer, n + 3).

(** The same world, except that training fails in the epoch [bad]. *)
Definition OutOfMemory : Exn := mkExn "RuntimeError" "CUDA out of memory".

Definition failing (bad : Z) : External nat := fun e n =>
  match e with
  | ECall "zsl.engine.train_epoch" _
      [_; _; _; ("epoch", OInt epoch); _; _] =>
      if (epoch =? bad)%Z then (inl OutOfMemory, n) else nominal e n
  | _ => nominal e n
  end.

End Notebook.

(** ** Observing runs *)

Module Observe.
Import Python.

(** [a] is an initial segment of [b]. *)
Definition prefix {X} (a b : list X) : Prop := exists rest, b = a ++ rest.

Section View.
Context {X : Type} (obs : Event -> list X).

(** What an observer who maps each operation to [obs] sees of a trace. *)
Definition view (t : Trace) : list X := flat_map (fun en => obs (fst en)) t.

(** Every run of [p] shows an initial segment of [l], and all of [l] when
    the run completes. *)
Definition emits {R} (p : Prog R) (l : list X) : Prop :=
  forall W (ext : External W) (w : W),
    prefix (view (trace (run ext p w))) l /\
    (forall r, result (run ext p w) = inr r -> view (trace (run ext p w)) = l).

End View.

(** The trace of every run of [p] satisfies [Phi]. *)
Definition always (Phi : Trace -> Prop) {R} (p : Prog R) : Prop :=
  forall W (ext : External W) (w : W), Phi (trace (run ext p w)).

End Observe.

(** ** What the notebook's runs look like *)

Module NotebookViews.
Import Python Notebook.

(** The stages of the pipeline. *)
Inductive Stage : Type :=
| Dataset | Loader | SemanticUnit | IdentityModule | Comparison
| TrainEpoch | Evaluate.

Definition stage_names : list (string * Stage) :=
  [("zsl.data.AwAFeaturesDataset", Dataset);
   ("DataLoader", Loader);
   ("zsl.models.LinearSemanticUnit", SemanticUnit);
   ("zsl.models.Identity", IdentityModule);
   ("zsl.models.ZeroShot", Comparison);
   ("zsl.engine.train_epoch", TrainEpoch);
   ("zsl.engine.evaluate", Evaluate)].

(** The stage an operation belongs to, if any. *)
Definition stage_of (e : Event) : list Stage :=
  match e with
  | ECall f _ _ =>
      match find (fun entry => (fst entry =? f)%string) stage_names with
      | Some (_, s) => [s]
      | None => []
      end
  | _ => []
  end.

(** The stages in the order the notebook is written. *)
Definition construction : list Stage :=
  [Dataset; Dataset; Dataset; Loader; Loader;
   SemanticUnit; IdentityModule; Comparison].

Definition pipeline : list Stage :=
  construction ++ flat_map (fun _ => [TrainEpoch; Evaluate]) (range EPOCHS).

(** The calls into [zsl.engine]. *)
Definition engine_call (e : Event) : list Event :=
  match e with
  | ECall f _ _ =>
      if ((f =? "zsl.engine.train_epoch") || (f =? "zsl.engine.evaluate"))%string
      then [e] else []
  | _ => []
  end.

(** The observer who sees every operation. *)
Definition every (e : Event) : list Event := [e].

(** The operations of the epoch loop, in order. *)
Definition loop_calls (epochs : list Z)
  (zs_model train_dl valid_dl optimizer device semantic_repr : Obj)
  : list Event :=
  flat_map (fun epoch =>
              [train_epoch_call zs_model train_dl optimizer epoch device;
               evaluate_call zs_model valid_dl semantic_repr device])
           epochs.

(** In the run [t] the objects handed to the engine were built as the
    notebook writes them: the two datasets with their keyword arguments,
    a loader over each, the semantic unit over the attributes of the
    training set, the identity module over the size of a feature vector,
    and the comparison model over these two modules. *)
Definition wired (t : Trace) (zs_model train_dl valid_dl valid_ds : Obj)
  : Prop :=
  exists fe features train_ds attrs n_attrs size semantic_unit visual_fe,
    In (train_ds_call fe, inr train_ds) t /\
    In (valid_ds_call fe, inr valid_ds) t /\
    In (train_dl_call train_ds, inr train_dl) t /\
    In (valid_dl_call valid_ds, inr valid_dl) t /\
    In (EGetAttr train_ds "attrs", inr attrs) t /\
    In (ECall "len" [attrs] [], inr n_attrs) t /\
    In (semantic_unit_call n_attrs, inr semantic_unit) t /\
    In (EMethod features "size" [OInt 0] [], inr size) t /\
    In (visual_fe_call size, inr visual_fe) t /\
    In (zs_model_call visual_fe semantic_unit, inr zs_model) t.

(** The calls of [torch.optim.AdamW], whatever their arguments. *)
Definition adamw_call (e : Event) : list Event :=
  match e with
  | ECall f _ _ => if (f =? "torch.optim.AdamW")%string then [e] else []
  | _ => []
  end.

(** The truth value the interpreter found for [flag] in the run [t]. *)
Definition holds (t : Trace) (flag : Obj) : Prop :=
  match flag with
  | ONone => False
  | OBool b => b = true
  | OInt z | OFloat z _ => z <> 0%Z
  | OStr s => s <> ""
  | OTuple l | OList l => l <> []
  | OGlobal _ | ORef _ => In (ETruth flag, inr (OBool true)) t
  end.

(** In the run [t] the attribute [p.requires_grad] was read and found
    true. *)
Definition reads_requires_grad (t : Trace) (p : Obj) : Prop :=
  exists flag,
    In (EGetAttr p "requires_grad", inr flag) t /\ holds t flag.

(** Every call of [torch.optim.AdamW] in the run [t] is the one of line
    273, and each parameter in its list was read as requiring a gradient
    before the call. *)
Definition filtered (t : Trace) : Prop :=
  forall before args kw resp rest,
    t = before ++ (ECall "torch.optim.AdamW" args kw, resp) :: rest ->
    exists parameters,
      ECall "torch.optim.AdamW" args kw = AdamW_call parameters /\
      Forall (reads_requires_grad before) parameters.

End NotebookViews.

(** ** Histories: what an operation of a run was preceded by *)

Module History.
Import Python.

(** Every operation of the run [t] passes the check [S], which is shown
    the operations that preceded it and its response. *)
Definition checked (S : Trace -> Event -> Response -> Prop) (t : Trace)
  : Prop :=
  forall before e r rest, t = before ++ (e, r) :: rest -> S before e r.

(** Running [q] after the history [c] keeps the run checked. *)
Definition keeps (S : Trace -> Event -> Response -> Prop) (c : Trace)
  {R} (q : Prog R) : Prop :=
  forall W (ext : External W) (w : W),
    checked S c -> checked S (c ++ trace (run ext q w)).

(** [kept] is [items] with some of them left out. *)
Inductive subsequence {A : Type} : list A -> list A -> Prop :=
| sub_nil : subsequence [] []
| sub_keep x kept items :
    subsequence kept items -> subsequence (x :: kept) (x :: items)
| sub_drop x kept items :
    subsequence kept items -> subsequence kept (x :: items).

End History.

(** ** More to observe of the notebook's runs *)

Module NotebookChecks.
Import Python Notebook NotebookViews.

(** The truth value the interpreter found for [flag] in the run [t] is
    false (compare [holds]). *)
Definition fails (t : Trace) (flag : Obj) : Prop :=
  match flag with
  | ONone => True
  | OBool b => b = false
  | OInt z | OFloat z _ => z = 0%Z
  | OStr s => s = ""
  | OTuple l | OList l => l = []
  | OGlobal _ | ORef _ => In (ETruth flag, inr (OBool false)) t
  end.

(** Iterating [o] in the run [t] gave [items] (compare [iterate]). *)
Definition yields (t : Trace) (o : Obj) (items : list Obj) : Prop :=
  match o with
  | OTuple l | OList l => items = l
  | OStr s => items = chars s
  | OGlobal _ | ORef _ =>
      In (EIter o, inr (OTuple items)) t \/ In (EIter o, inr (OList items)) t
  | ONone | OBool _ | OInt _ | OFloat _ _ => False
  end.

(** Line 94: [torch.device] is called with ['cuda'] when
    [torch.cuda.is_available()] was found true before, and with ['cpu']
    when it was found false. *)
Definition device_check (before : Trace) (e : Event) (r : Response) : Prop :=
  forall args kw, e = ECall "torch.device" args kw ->
    exists available,
      In (ECall "torch.cuda.is_available" [] [], inr available) before /\
      kw = [] /\
      ((holds before available /\ args = [OStr "cuda"]) \/
       (fails before available /\ args = [OStr "cpu"])).

(** Lines 272-273: the optimizer is called on the parameters of a model
    built by [zsl.models.ZeroShot]: on those that [parameters()] yielded,
    in the order it yielded them, leaving out none whose [requires_grad]
    read [True]. *)
Definition optimizer_check (before : Trace) (e : Event) (r : Response)
  : Prop :=
  forall args kw, e = ECall "torch.optim.AdamW" args kw ->
    exists visual_fe semantic_unit zs_model all items parameters,
      e = AdamW_call parameters /\
      In (zs_model_call visual_fe semantic_unit, inr zs_model) before /\
      In (EMethod zs_model "parameters" [] [], inr all) before /\
      yields before all items /\
      History.subsequence parameters items /\
      (forall p,
         In p items ->
         (forall flag,
            In (EGetAttr p "requires_grad", inr flag) before ->
            flag = OBool true) ->
         In p parameters).

(** The dot: character 46. *)
Definition dot_char : Ascii.ascii := Ascii.ascii_of_nat 46.

(** The part of a dotted name before its first dot. *)
Fixpoint head_name (s : string) : string :=
  match s with
  | EmptyString => EmptyString
  | String c rest =>
      if Ascii.eqb c dot_char then EmptyString
      else String c (head_name rest)
  end.

(** The names the notebook's imports bind (lines 42-44, 80-85), each with
    the module imported. *)
Definition bindings : list (string * string) :=
  [("torch", "torch"); ("F", "torch.nn.functional");
   ("zoo", "torchvision.models"); ("sys", "sys");
   ("DataLoader", "torch.utils.data"); ("zsl", "zsl")].

(** The import that binds the name a call starts with; [print], [len],
    [iter] and [next] are builtins and need none. *)
Definition binder_of (callee : string) : option string :=
  match find (fun b => (fst b =? head_name callee)%string) bindings with
  | Some (_, module) => Some module
  | None => None
  end.

(** A call through an imported name comes after the import that binds
    the name, and [import zsl] comes after [sys.path.append('..')]. *)
Definition import_check (before : Trace) (e : Event) (r : Response) : Prop :=
  match e with
  | ECall f _ _ =>
      match binder_of f with
      | Some module => exists v, In (EImport module, inr v) before
      | None => True
      end
  | EImport module =>
      if (module =? "zsl")%string
      then exists v,
             In (ECall "sys.path.append" [OStr ".."] [], inr v) before
      else True
  | _ => True
  end.

(** What the notebook calls, by name. *)
Definition known_imports : list string := map snd bindings.

(** In the run [t] every import of the notebook has completed, and so has
    [sys.path.append('..')]. *)
Definition imports_done (t : Trace) : Prop :=
  Forall (fun module => exists v, In (EImport module, inr v) t)
         known_imports /\
  exists v, In (ECall "sys.path.append" [OStr ".."] [], inr v) t.

(** The functions the notebook calls by name, in the order of their first
    call.  [range] (line 422) is among them: it is applied to the integer
    [EPOCHS] and evaluated by the interpreter ([Python.range]), so no run
    shows it as an operation on the outside world, whereas [len], [iter]
    and [next] are applied to external objects and [print] writes. *)
Definition known_callees : list string :=
  ["torch.randn"; "zoo.densenet121"; "F.adaptive_avg_pool2d"; "print";
   "sys.path.append"; "torch.cuda.is_available"; "torch.device";
   "zsl.data.AwAFeaturesDataset"; "DataLoader"; "len";
   "zsl.models.LinearSemanticUnit"; "zsl.models.Identity";
   "torch.FloatTensor"; "zsl.models.ZeroShot"; "iter"; "next";
   "torch.optim.AdamW"; "range"; "zsl.engine.train_epoch";
   "zsl.engine.evaluate"].

Definition known_methods : list string :=
  ["features"; "view"; "size"; "unsqueeze"; "to"; "parameters"].

Definition known_attributes : list string :=
  ["classes"; "shape"; "attrs"; "requires_grad"; "attr_matrix"].

Definition among (names : list string) (name : string) : bool :=
  existsb (String.eqb name) names.

(** An operation the notebook is written to perform.  Calling an object,
    indexing, iterating and asking for a truth value have no name. *)
Definition listed (e : Event) : bool :=
  match e with
  | EImport module => among known_imports module
  | ECall f _ _ => among known_callees f
  | EMethod _ m _ _ => among known_methods m
  | EGetAttr _ a => among known_attributes a
  | EApply _ _ _ | EGetItem _ _ | EIter _ | ETruth _ => true
  end.

Definition unlisted (e : Event) : list Event :=
  if listed e then [] else [e].

(** The module an import names, or the function a call names. *)
Definition name_of (e : Event) : list (string + string) :=
  match e with
  | EImport module => [inl module]
  | ECall f _ _ => [inr f]
  | _ => []
  end.

Definition is_train_epoch (e : Event) : bool :=
  match e with
  | ECall f _ _ => (f =? "zsl.engine.train_epoch")%string
  | _ => false
  end.

Definition is_evaluate (e : Event) : bool :=
  match e with
  | ECall f _ _ => (f =? "zsl.engine.evaluate")%string
  | _ => false
  end.

(** How many operations of the run [t] satisfy [f]. *)
Definition count (f : Event -> bool) (t : Trace) : nat :=
  List.length (filter f (map fst t)).

(** Lines 227-229: the arguments of the call on the first sample: its
    features, unsqueezed, and its attribute vector, which
    [torch.FloatTensor] has converted on line 205 and converts again on
    line 229, unsqueezed. *)
Definition first_sample_forward (before : Trace) (f s : Obj) : Prop :=
  exists ds item features target raw semantic again,
    In (EGetItem ds (OInt 0), inr item) before /\
    yields before item [features; target; raw] /\
    In (ECall "torch.FloatTensor" [raw] [], inr semantic) before /\
    In (ECall "torch.FloatTensor" [semantic] [], inr again) before /\
    In (EMethod features "unsqueeze" [OInt 0] [], inr f) before /\
    In (EMethod again "unsqueeze" [OInt 0] [], inr s) before.

(** Lines 259-261: the arguments of the call on the first batch of the
    training loader: its features and its attribute vectors, both moved
    to the device the model [m] was moved to. *)
Definition batch_forward (before : Trace) (m f s : Obj) : Prop :=
  exists train_ds train_dl it batch features labels semantics
         device_name device moved,
    In (ECall "DataLoader" [train_ds]
          [("shuffle", OBool true); ("batch_size", OInt 64);
           ("collate_fn", OGlobal "zsl.utils.collate_image_folder")],
        inr train_dl) before /\
    In (ECall "iter" [train_dl] [], inr it) before /\
    In (ECall "next" [it] [], inr batch) before /\
    yields before batch [features; labels; semantics] /\
    In (ECall "torch.device" [OStr device_name] [], inr device) before /\
    In (EMethod m "to" [device] [], inr moved) before /\
    In (EMethod features "to" [device] [], inr f) before /\
    In (EMethod semantics "to" [device] [], inr s) before.

(** What is called on two arguments is the model that
    [zsl.models.ZeroShot] built, and it is called in these two ways
    only. *)
Definition forward_check (before : Trace) (e : Event) (r : Response)
  : Prop :=
  forall m f s kw, e = EApply m [f; s] kw ->
    kw = [] /\
    (exists visual_fe semantic_unit,
       In (ECall "zsl.models.ZeroShot" [visual_fe; semantic_unit] [], inr m)
          before) /\
    (first_sample_forward before f s \/ batch_forward before m f s).

(** The calls of an object on two arguments. *)
Definition forward_call (e : Event) : list Event :=
  match e with
  | EApply _ [_; _] _ => [e]
  | _ => []
  end.

(** The calls of [torch.device], whatever their arguments. *)
Definition device_call (e : Event) : list Event :=
  match e with
  | ECall f _ _ => if (f =? "torch.device")%string then [e] else []
  | _ => []
  end.

(** *** How the pipeline is put together *)

(** The calls that put the pipeline together and the calls into the
    engine. *)
Definition construction_call (e : Event) : list Event :=
  match e with
  | ECall f _ _ =>
      if among ["DataLoader"; "zsl.models.LinearSemanticUnit";
                "zsl.models.Identity"; "zsl.models.ZeroShot";
                "zsl.engine.train_epoch"; "zsl.engine.evaluate"] f
      then [e] else []
  | _ => []
  end.

(** Lines 146-155, 184-187, 227 and 423-429: what each stage of the
    pipeline is built from.  A loader is built over a dataset; the
    semantic unit has as many inputs as the training dataset has
    attributes, and 1024 outputs; the identity module is given the size
    of the features of the first sample; the comparison model wraps these
    two modules; and the engine is handed that model and a loader. *)
Definition construction_check (before : Trace) (e : Event) (r : Response)
  : Prop :=
  (forall args kw, e = ECall "DataLoader" args kw ->
     exists ds dkw,
       args = [ds] /\
       In (ECall "zsl.data.AwAFeaturesDataset"
             [OStr "../data/AwA2/Animals_with_Attributes2"]
             (("features_type", OStr "ResNet101") :: dkw), inr ds) before) /\
  (forall args kw, e = ECall "zsl.models.LinearSemanticUnit" args kw ->
     exists train_ds attrs n_attrs,
       args = [] /\
       kw = [("in_features", n_attrs); ("out_features", OInt 1024)] /\
       In (ECall "zsl.data.AwAFeaturesDataset"
             [OStr "../data/AwA2/Animals_with_Attributes2"]
             [("features_type", OStr "ResNet101");
              ("load_unseen", OBool false)], inr train_ds) before /\
       In (EGetAttr train_ds "attrs", inr attrs) before /\
       In (ECall "len" [attrs] [], inr n_attrs) before) /\
  (forall args kw, e = ECall "zsl.models.Identity" args kw ->
     exists ds item features target semantic size,
       args = [size] /\
       kw = [] /\
       In (ECall "zsl.data.AwAFeaturesDataset"
             [OStr "../data/AwA2/Animals_with_Attributes2"]
             [("features_type", OStr "ResNet101")], inr ds) before /\
       In (EGetItem ds (OInt 0), inr item) before /\
       yields before item [features; target; semantic] /\
       In (EMethod features "size" [OInt 0] [], inr size) before) /\
  (forall args kw, e = ECall "zsl.models.ZeroShot" args kw ->
     exists visual_fe semantic_unit size n_attrs,
       args = [visual_fe; semantic_unit] /\
       kw = [] /\
       In (ECall "zsl.models.Identity" [size] [], inr visual_fe) before /\
       In (ECall "zsl.models.LinearSemanticUnit" []
             [("in_features", n_attrs); ("out_features", OInt 1024)],
           inr semantic_unit) before) /\
  (forall f args kw, e = ECall f args kw ->
     f = "zsl.engine.train_epoch" \/ f = "zsl.engine.evaluate" ->
     exists zs_model dl visual_fe semantic_unit ds dkw,
       args = [] /\
       In ("model", zs_model) kw /\
       In ("dl", dl) kw /\
       In (ECall "zsl.models.ZeroShot" [visual_fe; semantic_unit] [],
           inr zs_model) before /\
       In (ECall "DataLoader" [ds] dkw, inr dl) before).

(** *** What the dataset objects produce *)







(** A world in which indexing a dataset yields pairs. *)
Definition pairs : External nat := fun e n =>
  match e with
  | EGetItem _ (OInt 0) => (inr (OTuple [ORef n; OInt 7]), n + 3)
  | _ => nominal e n
  end.

End NotebookChecks.

(** ** Facts about runs *)

Module RunFacts.
Import Python Observe.
Local Open Scope py_scope.

Lemma after_nil {W R} (o : Outcome W R) : after [] o = o.
Proof. destruct o; reflexivity. Qed.

Lemma after_after {W R} (t1 t2 : Trace) (o : Outcome W R) :
  after t1 (after t2 o) = after (t1 ++ t2) o.
Proof. unfold after; simpl. now rewrite app_assoc. Qed.

Lemma then_run_after {W A B} (ext : External W) t (o : Outcome W A)
  (f : A -> Prog B) :
  then_run ext (after t o) f = after t (then_run ext o f).
Proof.
  unfold then_run; simpl. destruct (result o); simpl.
  - reflexivity.
  - now rewrite after_after.
Qed.

Lemma run_bind {W A B} (ext : External W) (p : Prog A) (f : A -> Prog B) w :
  run ext (bind p f) w = then_run ext (run ext p w) f.
Proof.
  revert B f w. induction p as [R r|R x|R e k IH|A R body IHb h IHh k IHk];
    intros B f w.
  - unfold then_run; simpl. now rewrite after_nil.
  - reflexivity.
  - simpl. destruct (ext e w) as [[x|v] w1].
    + reflexivity.
    + rewrite IH. now rewrite then_run_after.
  - simpl. destruct (result (run ext body w)) as [x|a].
    + destruct (result (run ext (h x) (world (run ext body w)))) as [y|a].
      * reflexivity.
      * rewrite IHk. now rewrite then_run_after.
    + rewrite IHk. now rewrite then_run_after.
Qed.

Lemma run_perform {W} (ext : External W) e w :
  run ext (perform e) w =
  mkOutcome (fst (ext e w)) (snd (ext e w)) [(e, fst (ext e w))].
Proof.
  unfold perform; simpl. destruct (ext e w) as [[x|v] w1]; reflexivity.
Qed.

(** *** Programs without handlers *)

Lemma handler_free_bind {A B} (p : Prog A) (f : A -> Prog B) :
  handler_free p -> (forall a, handler_free (f a)) -> handler_free (bind p f).
Proof.
  intros Hp Hf. induction Hp; simpl; auto using handler_free.
Qed.

Lemma handler_free_perform e : handler_free (perform e).
Proof. apply hf_do. intro v. apply hf_ret. Qed.

Lemma handler_free_unpack_error {R} n m : handler_free (@unpack_error R n m).
Proof. unfold unpack_error. destruct (m <? n)%nat; apply hf_raise. Qed.

Lemma handler_free_iterate o : handler_free (iterate o).
Proof.
  destruct o; simpl; try apply hf_ret; try apply hf_raise;
    apply hf_do; intros []; simpl; auto using handler_free.
Qed.

Lemma handler_free_truth o : handler_free (truth o).
Proof.
  destruct o; simpl; try apply hf_ret;
    apply hf_do; intros []; simpl; auto using handler_free.
Qed.

Lemma handler_free_unpack2 o : handler_free (unpack2 o).
Proof.
  apply handler_free_bind; [apply handler_free_iterate|].
  intros [|a [|b [|c l]]];
    first [apply hf_ret | apply handler_free_unpack_error].
Qed.

Lemma handler_free_unpack3 o : handler_free (unpack3 o).
Proof.
  apply handler_free_bind; [apply handler_free_iterate|].
  intros [|a [|b [|c [|d l]]]];
    first [apply hf_ret | apply handler_free_unpack_error].
Qed.

Lemma handler_free_for {A} (xs : list A) body :
  (forall x, handler_free (body x)) -> handler_free (for_ xs body).
Proof.
  intro Hb. induction xs; simpl; [apply hf_ret|].
  apply handler_free_bind; auto.
Qed.

Lemma handler_free_comprehension xs cond :
  (forall x, handler_free (cond x)) ->
  handler_free (comprehension_if xs cond).
Proof.
  intro Hc. induction xs; simpl; [apply hf_ret|].
  apply handler_free_bind; [apply Hc|]. intro b.
  apply handler_free_bind; [assumption|]. intro kept. apply hf_ret.
Qed.

(** In a program without handlers the first operation that raises is the
    last operation of the run, and what it raised is the result. *)
Lemma handler_free_propagates {W R} (ext : External W) (p : Prog R) :
  handler_free p ->
  forall w t1 e x t2,
    trace (run ext p w) = t1 ++ (e, inl x) :: t2 ->
    t2 = [] /\ result (run ext p w) = inl x.
Proof.
  induction 1 as [R r|R y|R e0 k Hk IH]; intros w t1 e x t2 Ht; simpl in *.
  - now destruct t1.
  - now destruct t1.
  - destruct (ext e0 w) as [[y|v] w1]; simpl in *.
    + destruct t1 as [|en t1]; simpl in Ht.
      * injection Ht as He Hx Ht2. subst. auto.
      * injection Ht as _ Ht. now destruct t1.
    + destruct t1 as [|en t1]; simpl in Ht.
      * discriminate.
      * injection Ht as _ Ht. eauto.
Qed.

(** *** Rules for [emits] *)

Lemma prefix_nil {X} (l : list X) : prefix [] l.
Proof. now exists l. Qed.

Lemma prefix_refl {X} (l : list X) : prefix l l.
Proof. exists []. now rewrite app_nil_r. Qed.

Lemma prefix_app_r {X} (a l1 l2 : list X) : prefix a l1 -> prefix a (l1 ++ l2).
Proof. intros [rest ->]. exists (rest ++ l2). now rewrite app_assoc. Qed.

Lemma prefix_app_l {X} (l1 a l2 : list X) :
  prefix a l2 -> prefix (l1 ++ a) (l1 ++ l2).
Proof. intros [rest ->]. exists rest. now rewrite app_assoc. Qed.

Section EmitsRules.
Context {X : Type} (obs : Event -> list X).

Lemma view_app t1 t2 : view obs (t1 ++ t2) = view obs t1 ++ view obs t2.
Proof. unfold view. apply flat_map_app. Qed.

Lemma view_one e r : view obs [(e, r)] = obs e.
Proof. unfold view; simpl. apply app_nil_r. Qed.

Lemma emits_ret {R} (r : R) : emits obs (Ret r) [].
Proof. intros W ext w; simpl. split; [apply prefix_nil | reflexivity]. Qed.

Lemma emits_raise {R} x l : emits obs (@Raise R x) l.
Proof. intros W ext w; simpl. split; [apply prefix_nil | discriminate]. Qed.

Lemma emits_perform e l : obs e = l -> emits obs (perform e) l.
Proof.
  intros <- W ext w. rewrite run_perform; cbn [trace result].
  rewrite view_one.
  split; [apply prefix_refl | reflexivity].
Qed.

Lemma emits_bind {A B} (p : Prog A) (f : A -> Prog B) l1 l2 :
  emits obs p l1 -> (forall a, emits obs (f a) l2) ->
  emits obs (bind p f) (l1 ++ l2).
Proof.
  intros Hp Hf W ext w. rewrite run_bind. unfold then_run.
  destruct (Hp W ext w) as [Hpre Hall].
  destruct (result (run ext p w)) as [x|a]; simpl.
  - split; [now apply prefix_app_r | discriminate].
  - destruct (Hf a W ext (world (run ext p w))) as [Hpre2 Hall2].
    rewrite view_app, (Hall a eq_refl). split.
    + now apply prefix_app_l.
    + intros r Hr. now rewrite (Hall2 r Hr).
Qed.

Lemma emits_silent_bind {A B} (p : Prog A) (f : A -> Prog B) l :
  emits obs p [] -> (forall a, emits obs (f a) l) -> emits obs (bind p f) l.
Proof. intros Hp Hf. apply (emits_bind p f [] l); assumption. Qed.

Lemma emits_for {A} (xs : list A) body (g : A -> list X) :
  (forall x, emits obs (body x) (g x)) ->
  emits obs (for_ xs body) (flat_map g xs).
Proof.
  intro Hb. induction xs as [|x xs IH]; simpl.
  - apply emits_ret.
  - apply emits_bind; auto.
Qed.

(** The interpreter's own questions are invisible to the observer. *)
Hypothesis obs_iter : forall o, obs (EIter o) = [].
Hypothesis obs_truth : forall o, obs (ETruth o) = [].

Lemma emits_iterate o : emits obs (iterate o) [].
Proof.
  unfold iterate; destruct o; try apply emits_ret; try apply emits_raise;
    (apply emits_silent_bind; [now apply emits_perform|]);
    intros []; first [apply emits_ret | apply emits_raise].
Qed.

Lemma emits_truth o : emits obs (truth o) [].
Proof.
  unfold truth; destruct o; try apply emits_ret;
    (apply emits_silent_bind; [now apply emits_perform|]);
    intros []; first [apply emits_ret | apply emits_raise].
Qed.

Lemma emits_unpack_error {R} n m l : emits obs (@unpack_error R n m) l.
Proof. unfold unpack_error. destruct (m <? n)%nat; apply emits_raise. Qed.

Lemma emits_unpack2 o : emits obs (unpack2 o) [].
Proof.
  apply emits_silent_bind; [apply emits_iterate|].
  intros [|a [|b [|c l]]];
    first [apply emits_ret | apply emits_unpack_error].
Qed.

Lemma emits_unpack3 o : emits obs (unpack3 o) [].
Proof.
  apply emits_silent_bind; [apply emits_iterate|].
  intros [|a [|b [|c [|d l]]]];
    first [apply emits_ret | apply emits_unpack_error].
Qed.

Lemma emits_comprehension xs cond :
  (forall x, emits obs (cond x) []) ->
  emits obs (comprehension_if xs cond) [].
Proof.
  intro Hc. induction xs as [|x xs IH]; simpl; [apply emits_ret|].
  apply emits_silent_bind; [apply Hc|]. intro b.
  apply emits_silent_bind; [apply IH|]. intro kept. apply emits_ret.
Qed.

End EmitsRules.

(** *** Rules for [always] *)

Section AlwaysRules.
Variable Phi : Trace -> Prop.
Hypothesis Phi_nil : Phi [].
Hypothesis Phi_app : forall t1 t2, Phi t1 -> Phi t2 -> Phi (t1 ++ t2).

Lemma always_ret {R} (r : R) : always Phi (Ret r).
Proof. intros W ext w. exact Phi_nil. Qed.

Lemma always_raise {R} x : always Phi (@Raise R x).
Proof. intros W ext w. exact Phi_nil. Qed.

Lemma always_perform e : (forall r, Phi [(e, r)]) -> always Phi (perform e).
Proof. intros He W ext w. rewrite run_perform. apply He. Qed.

Lemma always_bind {A B} (p : Prog A) (f : A -> Prog B) :
  always Phi p -> (forall a, always Phi (f a)) -> always Phi (bind p f).
Proof.
  intros Hp Hf W ext w. rewrite run_bind. unfold then_run.
  destruct (result (run ext p w)) as [x|a]; simpl.
  - apply Hp.
  - apply Phi_app; [apply Hp | apply Hf].
Qed.

Lemma always_for {A} (xs : list A) body :
  (forall x, always Phi (body x)) -> always Phi (for_ xs body).
Proof.
  intro Hb. induction xs as [|x xs IH]; simpl.
  - apply always_ret.
  - apply always_bind; auto.
Qed.

End AlwaysRules.

End RunFacts.

(** ** Facts about histories *)

Module HistoryFacts.
Import Python Observe History RunFacts.

Section Checks.
Variable S : Trace -> Event -> Response -> Prop.

Lemma checked_nil : checked S [].
Proof. intros before e r rest H. now destruct before. Qed.

(** A checked history stays checked when every operation added to it
    passes the check against what then precedes it. *)
Lemma checked_app c t :
  checked S c ->
  (forall before e r rest,
     t = before ++ (e, r) :: rest -> S (c ++ before) e r) ->
  checked S (c ++ t).
Proof.
  intros Hc Ht before e r rest Heq.
  apply app_eq_app in Heq as [l [[Hcl Hl]|[-> Hl]]].
  - destruct l as [|en l].
    + rewrite app_nil_r in Hcl. subst before.
      rewrite <- (app_nil_r c). apply (Ht [] e r rest). now symmetry.
    + injection Hl as He _. subst en. exact (Hc before e r l Hcl).
  - exact (Ht l e r rest Hl).
Qed.

Lemma keeps_ret c {R} (a : R) : keeps S c (Ret a).
Proof. intros W ext w Hc; simpl. now rewrite app_nil_r. Qed.

Lemma keeps_raise c {R} x : keeps S c (@Raise R x).
Proof. intros W ext w Hc; simpl. now rewrite app_nil_r. Qed.

Lemma keeps_perform c e : (forall r, S c e r) -> keeps S c (perform e).
Proof.
  intros He W ext w Hc. rewrite run_perform; cbn [trace].
  apply checked_app; [exact Hc|].
  intros before e' r' rest Heq. destruct before as [|en before].
  - injection Heq as <- <- _. rewrite app_nil_r. apply He.
  - injection Heq as _ Heq. now destruct before.
Qed.

(** [q] may rely on the result of [p] and on what [p] has added to the
    history. *)
Lemma keeps_bind c {A B} (p : Prog A) (f : A -> Prog B) :
  keeps S c p ->
  (forall W (ext : External W) w a,
     result (run ext p w) = inr a ->
     keeps S (c ++ trace (run ext p w)) (f a)) ->
  keeps S c (bind p f).
Proof.
  intros Hp Hf W ext w Hc. rewrite run_bind. unfold then_run.
  destruct (result (run ext p w)) as [x|a] eqn:Hr; cbn [trace after].
  - now apply Hp.
  - rewrite app_assoc. apply (Hf W ext w a Hr). now apply Hp.
Qed.

(** A program that performs only operations the check lets pass. *)
Lemma keeps_silent {X} (obs : Event -> list X) c {R} (q : Prog R) :
  (forall before e r, obs e = [] -> S before e r) ->
  emits obs q [] -> keeps S c q.
Proof.
  intros Hobs Hq W ext w Hc. apply checked_app; [exact Hc|].
  intros before e r rest Heq. apply Hobs.
  destruct (Hq W ext w) as [[more Hpre] _].
  symmetry in Hpre. apply app_eq_nil in Hpre as [Hview _].
  rewrite Heq, view_app in Hview. apply app_eq_nil in Hview as [_ Hview].
  unfold view in Hview. simpl in Hview.
  now apply app_eq_nil in Hview as [Hview _].
Qed.

(** A loop keeps the run checked when each iteration does, given a fact
    about the history that later operations cannot undo. *)
Lemma keeps_for {A} (P : Trace -> Prop) (xs : list A) body :
  (forall c t, P c -> P (c ++ t)) ->
  (forall c x, P c -> keeps S c (body x)) ->
  forall c, P c -> keeps S c (for_ xs body).
Proof.
  intros Hmono Hbody. induction xs as [|x xs IH]; intros c Hc; simpl.
  - apply keeps_ret.
  - apply keeps_bind; [now apply Hbody|].
    intros W ext w a _. apply IH. now apply Hmono.
Qed.


Lemma run_checked {R} (q : Prog R) :
  keeps S [] q ->
  forall W (ext : External W) w, checked S (trace (run ext q w)).
Proof. intros Hq W ext w. exact (Hq W ext w checked_nil). Qed.

End Checks.

End HistoryFacts.

(** ** The notebook: control flow and exceptions *)

Module NotebookFacts.
Import Python Notebook Observe RunFacts NotebookViews.
Local Open Scope py_scope.

Ltac split_pairs :=
  repeat match goal with x : (_ * _)%type |- _ => destruct x end.

Ltac open_cells :=
  unfold notebook, setup, cell_train, cell_optimizer, cell_batch,
    cell_to_device, cell_zero_shot, cell_shapes, cell_modules, cell_lengths,
    cell_loaders, cell_sample, cell_dataset, cell_device, cell_imports,
    cell_feature_vector, requires_grad, epoch_loop,
    print, import, call, apply, method, getattr, getitem.

Ltac handler_free_step :=
  lazymatch goal with
  | |- handler_free (bind _ _) =>
      apply handler_free_bind; [ | intro; split_pairs ]
  | |- handler_free (Ret _) => apply hf_ret
  | |- handler_free (perform _) => apply handler_free_perform
  | |- handler_free (unpack2 _) => apply handler_free_unpack2
  | |- handler_free (unpack3 _) => apply handler_free_unpack3
  | |- handler_free (iterate _) => apply handler_free_iterate
  | |- handler_free (truth _) => apply handler_free_truth
  | |- handler_free (for_ _ _) => apply handler_free_for; intro
  | |- handler_free (comprehension_if _ _) =>
      apply handler_free_comprehension; intro
  end.

Lemma notebook_handler_free : handler_free notebook.
Proof. open_cells. repeat handler_free_step. Qed.

(** *** The order of the stages *)

Lemma emits_eq {X} (obs : Event -> list X) {R} (p : Prog R) l l' :
  emits obs p l' -> l' = l -> emits obs p l.
Proof. now intros H <-. Qed.

Lemma emits_silent_comprehension {X} (obs : Event -> list X) xs cond l :
  (forall x, emits obs (cond x) l) -> l = [] ->
  emits obs (comprehension_if xs cond) [].
Proof. intros H ->. now apply emits_comprehension. Qed.

Ltac emits_step :=
  lazymatch goal with
  | |- emits _ (bind _ _) _ => eapply emits_bind; [ | intro; split_pairs ]
  | |- emits _ (Ret _) _ => apply emits_ret
  | |- emits _ (perform _) _ => apply emits_perform; cbv; reflexivity
  | |- emits _ (unpack2 _) _ => apply emits_unpack2; reflexivity
  | |- emits _ (unpack3 _) _ => apply emits_unpack3; reflexivity
  | |- emits _ (iterate _) _ => apply emits_iterate; reflexivity
  | |- emits _ (truth _) _ => apply emits_truth; reflexivity
  | |- emits _ (for_ _ _) _ => eapply emits_for; intro
  | |- emits _ (comprehension_if _ _) _ =>
      eapply emits_silent_comprehension; [ intro | ]
  | |- @eq (list _) _ _ => cbv; reflexivity
  end.

Ltac emits_auto :=
  eapply emits_eq; [ open_cells; repeat emits_step | vm_compute; reflexivity ].

Lemma notebook_stages : emits stage_of notebook pipeline.
Proof. emits_auto. Qed.

Lemma setup_stages : emits stage_of setup construction.
Proof. emits_auto. Qed.

Lemma setup_engine_silent : emits engine_call setup [].
Proof. emits_auto. Qed.

(** *** The training cell *)

Lemma view_every t : view every t = map fst t.
Proof.
  induction t as [|[e r] t IH]; [reflexivity|].
  unfold view in *; simpl. now rewrite IH.
Qed.

Lemma prefix_nil_inv {X} (l : list X) : prefix l [] -> l = [].
Proof. intros [rest H]. symmetry in H. now apply app_eq_nil in H. Qed.

Lemma silent {X} (obs : Event -> list X) {R} (p : Prog R) :
  emits obs p [] ->
  forall W (ext : External W) w, view obs (trace (run ext p w)) = [].
Proof. intros H W ext w. apply prefix_nil_inv, H. Qed.

(** The loop performs the two engine calls of each epoch, in order, and
    nothing else. *)
Lemma epoch_loop_calls epochs zs_model train_dl valid_dl optimizer device
  semantic_repr :
  emits every
    (epoch_loop epochs zs_model train_dl valid_dl optimizer device
       semantic_repr)
    (loop_calls (range epochs) zs_model train_dl valid_dl optimizer device
       semantic_repr).
Proof.
  unfold epoch_loop, loop_calls. apply emits_for. intro epoch.
  apply (emits_bind every _ _ [_] [_]); [now apply emits_perform|].
  intros _.
  apply (emits_bind every _ _ [_] []); [now apply emits_perform|].
  intros _. apply emits_ret.
Qed.

(** A run of the notebook either stops before the loop, or it consists of a
    run of the setup, the two operations that build [semantic_repr], and
    the calls of the loop. *)
Lemma notebook_anatomy W (ext : External W) w :
  (view engine_call (trace (run ext notebook w)) = [] /\
   exists x, result (run ext notebook w) = inl x) \/
  exists zs_model train_dl valid_dl valid_ds optimizer device
         attr_matrix semantic_repr loop,
    result (run ext setup w) =
      inr (zs_model, train_dl, valid_dl, valid_ds, optimizer, device) /\
    trace (run ext notebook w) =
      trace (run ext setup w) ++
      (EGetAttr valid_ds "attr_matrix", inr attr_matrix) ::
      (ECall "torch.FloatTensor" [attr_matrix] [], inr semantic_repr) ::
      loop /\
    prefix (map fst loop)
      (loop_calls (range EPOCHS) zs_model train_dl valid_dl optimizer device
         semantic_repr) /\
    (forall r, result (run ext notebook w) = inr r ->
       map fst loop =
       loop_calls (range EPOCHS) zs_model train_dl valid_dl optimizer device
         semantic_repr).
Proof.
  pose proof (silent engine_call setup setup_engine_silent W ext w) as Hs.
  unfold notebook. rewrite run_bind. unfold then_run.
  destruct (result (run ext setup w))
    as [x|[[[[[zs_model train_dl] valid_dl] valid_ds] optimizer] device]]
    eqn:Hsetup.
  { left. simpl. eauto. }
  set (w1 := world (run ext setup w)).
  unfold cell_train, getattr, call. rewrite run_bind, run_perform.
  unfold then_run; cbn [result world trace].
  destruct (ext (EGetAttr valid_ds "attr_matrix") w1) as [[x|attr_matrix] w2];
    cbn [fst snd].
  { left. cbn [after trace result]. rewrite view_app, Hs. eauto. }
  rewrite run_bind, run_perform. unfold then_run; cbn [result world trace].
  destruct (ext (ECall "torch.FloatTensor" [attr_matrix] []) w2)
    as [[x|semantic_repr] w3]; cbn [fst snd].
  { left. cbn [after trace result]. rewrite view_app, Hs. eauto. }
  right.
  destruct (epoch_loop_calls EPOCHS zs_model train_dl valid_dl optimizer
              device semantic_repr W ext w3) as [Hpre Hall].
  rewrite view_every in Hpre, Hall.
  exists zs_model, train_dl, valid_dl, valid_ds, optimizer, device,
    attr_matrix, semantic_repr.
  eexists. split; [reflexivity|]. split; [reflexivity|]. split.
  - exact Hpre.
  - intros r Hr. apply (Hall r). exact Hr.
Qed.

(** *** Where the names read by the training cell come from *)

Lemma bind_success {W A B} (ext : External W) (p : Prog A)
  (f : A -> Prog B) w r :
  result (run ext (bind p f) w) = inr r ->
  exists a w1,
    result (run ext p w) = inr a /\
    result (run ext (f a) w1) = inr r /\
    trace (run ext (bind p f) w) =
      trace (run ext p w) ++ trace (run ext (f a) w1).
Proof.
  rewrite run_bind. unfold then_run.
  destruct (result (run ext p w)) as [x|a]; [discriminate|].
  intro Hr. exists a, (world (run ext p w)). auto.
Qed.

Lemma perform_success {W} (ext : External W) e w v :
  result (run ext (perform e) w) = inr v ->
  trace (run ext (perform e) w) = [(e, inr v)].
Proof. rewrite run_perform; simpl. now intros ->. Qed.

Lemma ret_success {W R} (ext : External W) (a r : R) w :
  result (run ext (Ret a) w) = inr r -> a = r.
Proof. simpl. now intros [= ->]. Qed.

(** Take a completed run apart, operation by operation. *)
Ltac success_step :=
  match goal with
  | H : result (run _ (bind _ _) _) = inr _ |- _ =>
      let a := fresh "a" in
      let w1 := fresh "w" in
      let Hp := fresh "Hp" in
      let Hall := fresh "Hall" in
      apply bind_success in H;
      destruct H as (a & w1 & Hp & H & Hall);
      rewrite Hall; clear Hall; split_pairs; cbn beta iota in H
  | H : result (run _ (perform _) _) = inr _ |- _ =>
      apply perform_success in H
  | H : result (run _ (Ret _) _) = inr _ |- _ =>
      apply ret_success in H; try (injection H as H); subst
  end.

Ltac read_trace :=
  repeat match goal with
         | H : trace _ = _ |- _ => rewrite H; clear H
         end;
  simpl; auto 20.

Ltac find_in :=
  solve [ repeat first
            [ eassumption
            | apply in_or_app; first [ left; eassumption | right ] ] ].

Lemma cell_loaders_provenance W (ext : External W) w fe
  train_ds valid_ds train_dl valid_dl :
  result (run ext (cell_loaders fe) w) =
    inr (train_ds, valid_ds, train_dl, valid_dl) ->
  let t := trace (run ext (cell_loaders fe) w) in
  In (train_ds_call fe, inr train_ds) t /\
  In (valid_ds_call fe, inr valid_ds) t /\
  In (train_dl_call train_ds, inr train_dl) t /\
  In (valid_dl_call valid_ds, inr valid_dl) t.
Proof.
  intro H. unfold cell_loaders in *. cbv zeta.
  repeat success_step. repeat split; read_trace.
Qed.

Lemma cell_modules_provenance W (ext : External W) w train_ds features
  semantic_unit visual_fe :
  result (run ext (cell_modules train_ds features) w) =
    inr (semantic_unit, visual_fe) ->
  let t := trace (run ext (cell_modules train_ds features) w) in
  exists attrs n_attrs size,
    In (EGetAttr train_ds "attrs", inr attrs) t /\
    In (ECall "len" [attrs] [], inr n_attrs) t /\
    In (semantic_unit_call n_attrs, inr semantic_unit) t /\
    In (EMethod features "size" [OInt 0] [], inr size) t /\
    In (visual_fe_call size, inr visual_fe) t.
Proof.
  intro H. unfold cell_modules, getattr, call, method in *. cbv zeta.
  repeat success_step.
  match goal with
  | H1 : trace (run _ (perform (EGetAttr _ _)) _) = [(_, inr ?attrs)],
    H2 : trace (run _ (perform (ECall "len" _ _)) _) = [(_, inr ?n)],
    H3 : trace (run _ (perform (EMethod _ _ _ _)) _) = [(_, inr ?size)]
    |- _ => exists attrs, n, size
  end.
  repeat split; read_trace.
Qed.

Lemma cell_zero_shot_provenance W (ext : External W) w visual_fe
  semantic_unit features semantic zs_model :
  result (run ext (cell_zero_shot visual_fe semantic_unit features semantic)
            w) = inr zs_model ->
  In (zs_model_call visual_fe semantic_unit, inr zs_model)
     (trace (run ext (cell_zero_shot visual_fe semantic_unit features
                        semantic) w)).
Proof.
  intro H. unfold cell_zero_shot, call, method, apply in *.
  repeat success_step.
  match goal with
  | H1 : trace (run _ (perform (zs_model_call _ _)) _) = _ |- _ =>
      rewrite H1
  end.
  simpl. auto.
Qed.

(** A completed setup hands on objects that are wired as written. *)
Lemma setup_wiring W (ext : External W) w
  zs_model train_dl valid_dl valid_ds optimizer device :
  result (run ext setup w) =
    inr (zs_model, train_dl, valid_dl, valid_ds, optimizer, device) ->
  wired (trace (run ext setup w)) zs_model train_dl valid_dl valid_ds.
Proof.
  intro H. unfold setup in *. repeat success_step.
  match goal with
  | L : result (run _ (cell_loaders ?fe) _) = inr (?train_ds, _, _, _),
    M : result (run _ (cell_modules _ ?features) _) = inr (?su, ?vfe),
    Z : result (run _ (cell_zero_shot _ _ _ _) _) = inr _ |- _ =>
      destruct (cell_loaders_provenance _ _ _ _ _ _ _ _ L)
        as (L1 & L2 & L3 & L4);
      destruct (cell_modules_provenance _ _ _ _ _ _ _ M)
        as (attrs & n_attrs & size & M1 & M2 & M3 & M4 & M5);
      pose proof (cell_zero_shot_provenance _ _ _ _ _ _ _ _ Z) as Z1;
      exists fe, features, train_ds, attrs, n_attrs, size, su, vfe
  end.
  repeat split; find_in.
Qed.

(** *** Calls of the loop *)

Lemma in_view {X} (obs : Event -> list X) t e r x :
  In (e, r) t -> In x (obs e) -> In x (view obs t).
Proof.
  intros Ht Hx. unfold view. apply in_flat_map. now exists (e, r).
Qed.

Lemma prefix_in {X} (a b : list X) x : prefix a b -> In x a -> In x b.
Proof. intros [rest ->] H. apply in_or_app. now left. Qed.

Lemma prefix_incl_forall {X} (P : X -> Prop) (a b : list X) :
  prefix a b -> Forall P b -> Forall P a.
Proof.
  intros Hp Hb. rewrite Forall_forall in *. eauto using prefix_in.
Qed.

Lemma in_loop_calls e epochs zs_model train_dl valid_dl optimizer device
  semantic_repr :
  In e (loop_calls epochs zs_model train_dl valid_dl optimizer device
          semantic_repr) ->
  (exists epoch, In epoch epochs /\
     e = train_epoch_call zs_model train_dl optimizer epoch device) \/
  e = evaluate_call zs_model valid_dl semantic_repr device.
Proof.
  unfold loop_calls. rewrite in_flat_map. intros (epoch & Hin & [<-|[<-|[]]]).
  - left. now exists epoch.
  - now right.
Qed.

Lemma loop_calls_engine epochs zs_model train_dl valid_dl optimizer device
  semantic_repr :
  Forall (fun e => engine_call e = [e])
    (loop_calls epochs zs_model train_dl valid_dl optimizer device
       semantic_repr).
Proof.
  apply Forall_forall. intros e He.
  apply in_loop_calls in He as [(epoch & _ & ->)| ->]; reflexivity.
Qed.

Lemma view_engine_all (t : Trace) :
  Forall (fun e => engine_call e = [e]) (map fst t) ->
  view engine_call t = map fst t.
Proof.
  induction t as [|[e r] t IH]; [reflexivity|]. simpl.
  intro H. inversion H as [|? ? He Ht]; subst.
  unfold view in *; simpl. rewrite He. simpl. now rewrite IH.
Qed.

(** *** The parameters of the optimizer *)

Lemma holds_app_l t t' flag : holds t flag -> holds (t ++ t') flag.
Proof. destruct flag; simpl; auto using in_or_app. Qed.

Lemma holds_app_r t t' flag : holds t' flag -> holds (t ++ t') flag.
Proof. destruct flag; simpl; auto using in_or_app. Qed.

Lemma reads_app_l t t' p :
  reads_requires_grad t p -> reads_requires_grad (t ++ t') p.
Proof.
  intros (flag & Hin & Hh). exists flag.
  auto using in_or_app, holds_app_l.
Qed.

Lemma reads_app_r t t' p :
  reads_requires_grad t' p -> reads_requires_grad (t ++ t') p.
Proof.
  intros (flag & Hin & Hh). exists flag.
  auto using in_or_app, holds_app_r.
Qed.

Lemma filtered_nil : filtered [].
Proof. intros before args kw resp rest H. now destruct before. Qed.

Lemma filtered_app t1 t2 : filtered t1 -> filtered t2 -> filtered (t1 ++ t2).
Proof.
  intros H1 H2 before args kw resp rest Heq.
  apply app_eq_app in Heq as [l [[Ht1 Hl]|[-> Hl]]].
  - destruct l as [|en l].
    + destruct (H2 [] args kw resp rest (eq_sym Hl)) as (ps & Hcall & Hps).
      exists ps. split; [exact Hcall|].
      eapply Forall_impl; [|exact Hps]. intros p Hp.
      rewrite <- (app_nil_r before). now apply reads_app_r.
    + injection Hl as He _. subst en.
      exact (H1 before args kw resp l Ht1).
  - destruct (H2 l args kw resp rest Hl) as (ps & Hcall & Hps).
    exists ps. split; [exact Hcall|].
    eapply Forall_impl; [|exact Hps]. intros p. apply reads_app_r.
Qed.

(** A run without a call of the optimizer is filtered. *)
Lemma silent_filtered {R} (p : Prog R) :
  emits adamw_call p [] -> always filtered p.
Proof.
  intros Hs W ext w before args kw resp rest Heq.
  assert (Hin : In (ECall "torch.optim.AdamW" args kw, resp)
                   (trace (run ext p w))).
  { rewrite Heq. apply in_or_app. right. now left. }
  apply (in_view adamw_call _ _ _ (ECall "torch.optim.AdamW" args kw)) in Hin;
    [|simpl; auto].
  rewrite (silent adamw_call p Hs) in Hin. destruct Hin.
Qed.

Lemma truth_holds W (ext : External W) w flag :
  result (run ext (truth flag) w) = inr true ->
  holds (trace (run ext (truth flag) w)) flag.
Proof.
  destruct flag; simpl.
  - discriminate.
  - now intros [= ->].
  - intros [= H]. now apply negb_true_iff, Z.eqb_neq in H.
  - intros [= H]. now apply negb_true_iff, Z.eqb_neq in H.
  - intros [= H]. now apply negb_true_iff, String.eqb_neq in H.
  - destruct items; [discriminate | easy].
  - destruct items; [discriminate | easy].
  - destruct (ext (ETruth (OGlobal qualified_name)) w) as [[x|[]] w1];
      simpl; try discriminate. intros [= ->]. auto.
  - destruct (ext (ETruth (ORef id)) w) as [[x|[]] w1];
      simpl; try discriminate. intros [= ->]. auto.
Qed.

Lemma requires_grad_reads W (ext : External W) w p :
  result (run ext (requires_grad p) w) = inr true ->
  reads_requires_grad (trace (run ext (requires_grad p) w)) p.
Proof.
  intro H. unfold requires_grad, getattr in *. success_step.
  success_step. rewrite Hp. exists a. split.
  - simpl. auto.
  - apply holds_app_r. now apply truth_holds.
Qed.

(** The comprehension of line 272 keeps only parameters that were read as
    requiring a gradient. *)
Lemma comprehension_reads W (ext : External W) ps : forall w kept,
  result (run ext (comprehension_if ps requires_grad) w) = inr kept ->
  Forall (reads_requires_grad
            (trace (run ext (comprehension_if ps requires_grad) w))) kept.
Proof.
  induction ps as [|p ps IH]; intros w kept H.
  - apply ret_success in H. subst. constructor.
  - cbn [comprehension_if] in *. success_step. success_step. success_step.
    apply IH in Hp0.
    assert (Hrest : Forall
      (reads_requires_grad
         (trace (run ext (requires_grad p) w) ++
          trace (run ext (comprehension_if ps requires_grad) w0) ++
          trace (run ext (Ret (if a then p :: a0 else a0)) w1))) a0).
    { eapply Forall_impl; [|exact Hp0]. intros q Hq.
      apply reads_app_r, reads_app_l, Hq. }
    destruct a; [constructor|]; try assumption.
    apply reads_app_l. now apply requires_grad_reads.
Qed.

Lemma adamw_silent_comprehension ps :
  emits adamw_call (comprehension_if ps requires_grad) [].
Proof. emits_auto. Qed.

Lemma cell_optimizer_filtered zs_model :
  always filtered (cell_optimizer zs_model).
Proof.
  unfold cell_optimizer, method.
  apply (always_bind filtered filtered_app).
  { apply silent_filtered. emits_auto. }
  intro all. apply (always_bind filtered filtered_app).
  { apply silent_filtered. emits_auto. }
  intros ps W ext w. rewrite run_bind. unfold then_run.
  destruct (result (run ext (comprehension_if ps requires_grad) w))
    as [x|kept] eqn:Hr.
  { apply (silent_filtered _ (adamw_silent_comprehension ps)). }
  rewrite run_perform. cbn [after trace].
  pose proof (comprehension_reads W ext ps w kept Hr) as Hkept.
  pose proof (silent adamw_call _ (adamw_silent_comprehension ps) W ext w)
    as Hsilent.
  intros before args kw resp rest Heq.
  assert (Hnot : forall l l',
            trace (run ext (comprehension_if ps requires_grad) w) =
            l ++ (ECall "torch.optim.AdamW" args kw, resp) :: l' -> False).
  { intros l l' Hc.
    assert (Hin : In (ECall "torch.optim.AdamW" args kw)
                     (view adamw_call
                        (trace (run ext (comprehension_if ps requires_grad)
                                  w)))).
    { apply (in_view adamw_call _ (ECall "torch.optim.AdamW" args kw) resp);
        [|simpl; auto].
      rewrite Hc. apply in_or_app. right. now left. }
    rewrite Hsilent in Hin. destruct Hin. }
  apply app_eq_app in Heq as [l [[Hc Hl]|[-> Hl]]].
  - destruct l as [|en l].
    + rewrite app_nil_r in Hc. subst before.
      injection Hl; intros; subst.
      exists kept. split; [reflexivity|exact Hkept].
    + injection Hl as He _. subst en. destruct (Hnot _ _ Hc).
  - destruct l as [|en l].
    + rewrite app_nil_r. injection Hl; intros; subst.
      exists kept. split; [reflexivity|exact Hkept].
    + injection Hl as _ Hl. now destruct l.
Qed.

Ltac filtered_step :=
  lazymatch goal with
  | |- always filtered (cell_optimizer _) => apply cell_optimizer_filtered
  | |- always filtered (bind _ _) =>
      apply (always_bind filtered filtered_app); [ | intro; split_pairs ]
  | |- always filtered (Ret _) => apply (always_ret filtered filtered_nil)
  | |- always filtered _ => apply silent_filtered; emits_auto
  end.

Lemma notebook_filtered : always filtered notebook.
Proof. unfold notebook, setup. repeat filtered_step. Qed.

Lemma evaluate_in_loop args kw epochs zs_model train_dl valid_dl optimizer
  device semantic_repr :
  In (ECall "zsl.engine.evaluate" args kw)
     (loop_calls epochs zs_model train_dl valid_dl optimizer device
        semantic_repr) ->
  In ("class_representations", semantic_repr) kw.
Proof.
  intro H. apply in_loop_calls in H as [(epoch & _ & H)|H].
  - discriminate H.
  - injection H as _ ->. simpl. auto.
Qed.

Lemma loop_trace_engine (loop : Trace) epochs zs_model train_dl valid_dl
  optimizer device semantic_repr :
  prefix (map fst loop)
    (loop_calls epochs zs_model train_dl valid_dl optimizer device
       semantic_repr) ->
  view engine_call loop = map fst loop.
Proof.
  intro Hp. apply view_engine_all.
  eapply prefix_incl_forall; [exact Hp | apply loop_calls_engine].
Qed.

End NotebookFacts.

(** ** The notebook: where its arguments come from *)

Module NotebookFlow.
Import Python Notebook Observe History RunFacts NotebookViews NotebookChecks
  NotebookFacts HistoryFacts.
Local Open Scope py_scope.

(** Membership in a history built by appending. *)
Ltac in_hist :=
  lazymatch goal with
  | |- In _ (_ ++ _) =>
      first [ eassumption
            | apply in_or_app; left; in_hist
            | apply in_or_app; right; in_hist ]
  | |- In _ (_ :: _) => first [ apply in_eq | apply in_cons; in_hist ]
  | |- In _ _ => eassumption
  end.

(** *** The device *)

Lemma fails_app_r t t' flag : fails t' flag -> fails (t ++ t') flag.
Proof. destruct flag; simpl; auto using in_or_app. Qed.

Lemma truth_verdict W (ext : External W) w flag b :
  result (run ext (truth flag) w) = inr b ->
  if b then holds (trace (run ext (truth flag) w)) flag
  else fails (trace (run ext (truth flag) w)) flag.
Proof.
  destruct b; [apply truth_holds|].
  destruct flag; simpl.
  - trivial.
  - now intros [= ->].
  - intros [= H]. now apply negb_false_iff, Z.eqb_eq in H.
  - intros [= H]. now apply negb_false_iff, Z.eqb_eq in H.
  - intros [= H]. now apply negb_false_iff, String.eqb_eq in H.
  - destruct items; [easy | discriminate].
  - destruct items; [easy | discriminate].
  - destruct (ext (ETruth (OGlobal qualified_name)) w) as [[x|[]] w1];
      simpl; try discriminate. intros [= ->]. auto.
  - destruct (ext (ETruth (ORef id)) w) as [[x|[]] w1];
      simpl; try discriminate. intros [= ->]. auto.
Qed.

Lemma device_check_silent before e r :
  device_call e = [] -> device_check before e r.
Proof. intros He args kw ->. discriminate He. Qed.

Lemma cell_device_keeps c : keeps device_check c cell_device.
Proof.
  unfold cell_device, call. apply keeps_bind.
  { apply keeps_perform. intros r args kw H. discriminate H. }
  intros W ext w available Hav. apply perform_success in Hav. rewrite Hav.
  apply keeps_bind.
  { apply (keeps_silent device_check device_call);
      [exact device_check_silent | now apply emits_truth]. }
  intros W1 ext1 w1 cuda Hcuda. apply keeps_perform.
  intros r args kw Heq. injection Heq as <- <-.
  exists available. split; [in_hist|]. split; [reflexivity|].
  pose proof (truth_verdict W1 ext1 w1 available cuda Hcuda) as Hv.
  destruct cuda; [left | right]; (split; [|reflexivity]).
  - now apply holds_app_r.
  - now apply fails_app_r.
Qed.

Ltac device_silent :=
  apply (keeps_silent device_check device_call);
  [ exact device_check_silent | emits_auto ].

Lemma notebook_device_checked : keeps device_check [] notebook.
Proof.
  unfold notebook. apply keeps_bind.
  - unfold setup.
    apply keeps_bind; [device_silent|]. intros W0 ext0 w0 a0 _.
    apply keeps_bind; [device_silent|]. intros W1 ext1 w1 a1 _.
    apply keeps_bind; [apply cell_device_keeps|]. intros W2 ext2 w2 device _.
    device_silent.
  - intros W ext w a _. split_pairs. device_silent.
Qed.

(** *** The parameters of the optimizer, again *)

Lemma yields_app_r t t' o items : yields t' o items -> yields (t ++ t') o items.
Proof. destruct o; simpl; try tauto; intros [H|H]; auto using in_or_app. Qed.

Lemma yields_app_l t t' o items : yields t o items -> yields (t ++ t') o items.
Proof. destruct o; simpl; try tauto; intros [H|H]; auto using in_or_app. Qed.

Lemma iterate_yields W (ext : External W) w o items :
  result (run ext (iterate o) w) = inr items ->
  yields (trace (run ext (iterate o) w)) o items.
Proof.
  destruct o; simpl; try discriminate; try (now intros [= ->]).
  - destruct (ext (EIter (OGlobal qualified_name)) w) as [[x|[]] w1];
      simpl; try discriminate; intros [= ->]; auto.
  - destruct (ext (EIter (ORef id)) w) as [[x|[]] w1];
      simpl; try discriminate; intros [= ->]; auto.
Qed.

(** A parameter is left out only after a read that was not [True]. *)
Lemma requires_grad_false W (ext : External W) w p :
  result (run ext (requires_grad p) w) = inr false ->
  exists flag,
    In (EGetAttr p "requires_grad", inr flag)
       (trace (run ext (requires_grad p) w)) /\
    flag <> OBool true.
Proof.
  intro H. unfold requires_grad, getattr in *. success_step. success_step.
  exists a. split.
  - rewrite Hp. simpl. auto.
  - intros ->. simpl in H. discriminate H.
Qed.

(** The comprehension of line 272 keeps the order of the parameters and
    leaves out none whose flag only ever read [True]. *)
Lemma comprehension_complete W (ext : External W) ps : forall w kept,
  result (run ext (comprehension_if ps requires_grad) w) = inr kept ->
  subsequence kept ps /\
  (forall p,
     In p ps ->
     (forall flag,
        In (EGetAttr p "requires_grad", inr flag)
           (trace (run ext (comprehension_if ps requires_grad) w)) ->
        flag = OBool true) ->
     In p kept).
Proof.
  induction ps as [|q ps IH]; intros w kept H.
  - apply ret_success in H. subst. split; [constructor | intros p []].
  - cbn [comprehension_if] in *. success_step. success_step. success_step.
    destruct (IH _ _ Hp0) as [Hsub Hall]. split.
    + destruct a; now constructor.
    + intros p [->|Hin] Htrue.
      * destruct a; [now left|].
        destruct (requires_grad_false W ext w p Hp) as (flag & Hread & Hnot).
        destruct Hnot. apply Htrue. apply in_or_app. now left.
      * assert (Hkept : In p a0).
        { apply Hall; [exact Hin|]. intros flag Hread. apply Htrue.
          apply in_or_app. right. apply in_or_app. now left. }
        destruct a; [now right | exact Hkept].
Qed.

Lemma optimizer_check_silent before e r :
  adamw_call e = [] -> optimizer_check before e r.
Proof. intros He args kw ->. discriminate He. Qed.

Lemma cell_optimizer_keeps c visual_fe semantic_unit zs_model :
  In (zs_model_call visual_fe semantic_unit, inr zs_model) c ->
  keeps optimizer_check c (cell_optimizer zs_model).
Proof.
  intro Hmodel. unfold cell_optimizer, method. apply keeps_bind.
  { apply keeps_perform. intros r args kw H. discriminate H. }
  intros W ext w all Hall. apply perform_success in Hall. rewrite Hall.
  apply keeps_bind.
  { apply (keeps_silent optimizer_check adamw_call);
      [exact optimizer_check_silent | now apply emits_iterate]. }
  intros W1 ext1 w1 items Hitems. apply iterate_yields in Hitems.
  apply keeps_bind.
  { apply (keeps_silent optimizer_check adamw_call);
      [exact optimizer_check_silent | apply adamw_silent_comprehension]. }
  intros W2 ext2 w2 kept Hkept.
  destruct (comprehension_complete W2 ext2 items w2 kept Hkept)
    as [Hsub Hcomplete].
  apply keeps_perform. intros r args kw Heq.
  exists visual_fe, semantic_unit, zs_model, all, items, kept.
  split; [reflexivity|]. split; [in_hist|]. split; [in_hist|]. split.
  { apply yields_app_l, yields_app_r, Hitems. }
  split; [exact Hsub|].
  intros p Hin Htrue. apply Hcomplete; [exact Hin|].
  intros flag Hread. apply Htrue. in_hist.
Qed.

Ltac optimizer_silent :=
  apply (keeps_silent optimizer_check adamw_call);
  [ exact optimizer_check_silent | emits_auto ].

Lemma notebook_optimizer_checked : keeps optimizer_check [] notebook.
Proof.
  unfold notebook. apply keeps_bind.
  - unfold setup.
    apply keeps_bind; [optimizer_silent|]. intros W0 ext0 w0 a0 _.
    apply keeps_bind; [optimizer_silent|]. intros W1 ext1 w1 a1 _.
    apply keeps_bind; [optimizer_silent|]. intros W2 ext2 w2 device _.
    apply keeps_bind; [optimizer_silent|]. intros W3 ext3 w3 a3 _.
    split_pairs.
    apply keeps_bind; [optimizer_silent|]. intros W4 ext4 w4 a4 _.
    split_pairs.
    apply keeps_bind; [optimizer_silent|]. intros W5 ext5 w5 a5 _.
    split_pairs.
    apply keeps_bind; [optimizer_silent|]. intros W6 ext6 w6 a6 _.
    apply keeps_bind; [optimizer_silent|]. intros W7 ext7 w7 a7 _.
    split_pairs.
    apply keeps_bind; [optimizer_silent|]. intros W8 ext8 w8 semantic _.
    apply keeps_bind; [optimizer_silent|]. intros W9 ext9 w9 zs_model Hz.
    apply cell_zero_shot_provenance in Hz.
    apply keeps_bind; [optimizer_silent|]. intros W10 ext10 w10 a10 _.
    apply keeps_bind; [optimizer_silent|]. intros W11 ext11 w11 a11 _.
    apply keeps_bind.
    + eapply cell_optimizer_keeps. in_hist.
    + intros W12 ext12 w12 optimizer _. apply keeps_ret.
  - intros W ext w a _. split_pairs. optimizer_silent.
Qed.

(** *** Imports *)

Lemma binder_of_known f module :
  binder_of f = Some module -> In module known_imports.
Proof.
  unfold binder_of.
  destruct (find _ bindings) as [[name m]|] eqn:Hfind; [|discriminate].
  intros [= <-]. apply find_some in Hfind as [Hin _].
  apply (in_map snd) in Hin. exact Hin.
Qed.

Lemma imports_done_app t t' : imports_done t -> imports_done (t ++ t').
Proof.
  intros [Hall [v Hv]]. split.
  - eapply Forall_impl; [|exact Hall]. intros module [u Hu].
    exists u. apply in_or_app. now left.
  - exists v. apply in_or_app. now left.
Qed.

(** Once the imports are done, anything may follow. *)
Lemma imports_done_keeps c {R} (q : Prog R) :
  imports_done c -> keeps import_check c q.
Proof.
  intros Hdone W ext w Hc. apply checked_app; [exact Hc|].
  intros before e r rest _.
  destruct (imports_done_app c before Hdone) as [Hall Hpath].
  destruct e; simpl; trivial.
  - destruct (module =? "zsl")%string; trivial.
  - destruct (binder_of callee) as [module|] eqn:Hb; [|trivial].
    rewrite Forall_forall in Hall. apply Hall.
    eapply binder_of_known, Hb.
Qed.

Ltac import_step :=
  apply keeps_bind;
  [ apply keeps_perform; intro; simpl;
    first [ exact I | eexists; in_hist ]
  | let v := fresh "v" in
    let Hv := fresh "Hv" in
    intros ? ? ? v Hv; apply perform_success in Hv; rewrite Hv; clear Hv ].

Lemma cell_feature_vector_keeps c : keeps import_check c cell_feature_vector.
Proof.
  unfold cell_feature_vector, print, import, call, method.
  repeat import_step. apply keeps_ret.
Qed.

Lemma cell_imports_keeps c : keeps import_check c cell_imports.
Proof.
  unfold cell_imports, import, call.
  repeat import_step. apply keeps_ret.
Qed.

Ltac rewrite_traces :=
  repeat match goal with
         | H : trace _ = _ |- _ => rewrite H; clear H
         end.

Lemma first_cells_done W (ext : External W) w a
  W' (ext' : External W') w' a' c :
  result (run ext cell_feature_vector w) = inr a ->
  result (run ext' cell_imports w') = inr a' ->
  imports_done ((c ++ trace (run ext cell_feature_vector w)) ++
                trace (run ext' cell_imports w')).
Proof.
  intros H1 H2.
  unfold cell_feature_vector, cell_imports, print, import, call, method in *.
  repeat success_step. rewrite_traces.
  split.
  - unfold known_imports. simpl map.
    repeat (apply Forall_cons; [eexists; in_hist|]). apply Forall_nil.
  - eexists. in_hist.
Qed.

Lemma setup_imports W (ext : External W) w r :
  result (run ext setup w) = inr r -> imports_done (trace (run ext setup w)).
Proof.
  intro H. unfold setup in *. success_step. success_step.
  rewrite app_assoc. apply imports_done_app.
  exact (first_cells_done W ext w a W ext w0 a0 [] Hp Hp0).
Qed.

Lemma notebook_imports_checked : keeps import_check [] notebook.
Proof.
  unfold notebook. apply keeps_bind.
  - unfold setup.
    apply keeps_bind; [apply cell_feature_vector_keeps|].
    intros W0 ext0 w0 a0 H0.
    apply keeps_bind; [apply cell_imports_keeps|].
    intros W1 ext1 w1 a1 H1.
    apply imports_done_keeps.
    exact (first_cells_done W0 ext0 w0 a0 W1 ext1 w1 a1 [] H0 H1).
  - intros W ext w a Ha. apply imports_done_keeps.
    exact (setup_imports W ext w a Ha).
Qed.

(** *** What the engine is handed *)

Lemma cell_device_provenance W (ext : External W) w device :
  result (run ext cell_device w) = inr device ->
  exists device_name,
    In (ECall "torch.device" [OStr device_name] [], inr device)
       (trace (run ext cell_device w)).
Proof.
  intro H. unfold cell_device, call in *. success_step. success_step.
  success_step. rewrite H. eexists. in_hist.
Qed.

Lemma cell_to_device_provenance W (ext : External W) w zs_model device r :
  result (run ext (cell_to_device zs_model device) w) = inr r ->
  exists moved,
    In (EMethod zs_model "to" [device] [], inr moved)
       (trace (run ext (cell_to_device zs_model device) w)).
Proof.
  intro H. unfold cell_to_device, method in *. repeat success_step.
  rewrite_traces. eexists. in_hist.
Qed.

Lemma yields_incl t t' o items :
  (forall x, In x t -> In x t') -> yields t o items -> yields t' o items.
Proof. intro H. destruct o; simpl; try tauto; intros [Hi|Hi]; auto. Qed.

Lemma cell_dataset_provenance W (ext : External W) w fe ds :
  result (run ext cell_dataset w) = inr (fe, ds) ->
  fe = OStr "ResNet101" /\
  In (ECall "zsl.data.AwAFeaturesDataset"
        [OStr "../data/AwA2/Animals_with_Attributes2"]
        [("features_type", OStr "ResNet101")], inr ds)
     (trace (run ext cell_dataset w)).
Proof.
  intro H. unfold cell_dataset, call in *. cbv zeta in H.
  success_step. success_step. apply ret_success in H.
  injection H as <- <-. split; [reflexivity|]. rewrite Hp. in_hist.
Qed.

(** The optimizer of a completed cell of lines 272-273 was built over
    items that [zs_model.parameters()] yielded. *)
Lemma cell_optimizer_flow W (ext : External W) w zs_model optimizer :
  result (run ext (cell_optimizer zs_model) w) = inr optimizer ->
  exists all items parameters,
    In (EMethod zs_model "parameters" [] [], inr all)
       (trace (run ext (cell_optimizer zs_model) w)) /\
    yields (trace (run ext (cell_optimizer zs_model) w)) all items /\
    subsequence parameters items /\
    In (ECall "torch.optim.AdamW" [OList parameters; OFloat 1 (-4)]
          [("weight_decay", OFloat 9 (-5))], inr optimizer)
       (trace (run ext (cell_optimizer zs_model) w)).
Proof.
  intro H. unfold cell_optimizer, method in *. repeat success_step.
  match goal with
  | P : trace (run _ (perform (EMethod _ _ _ _)) _) = [(_, inr ?all)],
    I : result (run _ (iterate _) _) = inr ?items,
    C : result (run _ (comprehension_if _ _) _) = inr ?kept |- _ =>
      apply iterate_yields in I;
      destruct (comprehension_complete _ _ _ _ _ C) as [Hsub _];
      exists all, items, kept; rewrite P, H
  end.
  split; [in_hist|]. split; [now apply yields_app_r, yields_app_l|].
  split; [exact Hsub|]. in_hist.
Qed.

(** Where the six names that the training cell reads come from, in a
    completed setup. *)
Lemma setup_flow W (ext : External W) w
  zs_model train_dl valid_dl valid_ds optimizer device :
  result (run ext setup w) =
    inr (zs_model, train_dl, valid_dl, valid_ds, optimizer, device) ->
  exists device_name train_ds visual_fe semantic_unit moved all items
         parameters,
    In (ECall "torch.device" [OStr device_name] [], inr device)
       (trace (run ext setup w)) /\
    In (ECall "zsl.data.AwAFeaturesDataset"
          [OStr "../data/AwA2/Animals_with_Attributes2"]
          [("features_type", OStr "ResNet101"); ("load_unseen", OBool false)],
        inr train_ds) (trace (run ext setup w)) /\
    In (ECall "zsl.data.AwAFeaturesDataset"
          [OStr "../data/AwA2/Animals_with_Attributes2"]
          [("features_type", OStr "ResNet101"); ("load_unseen", OBool true);
           ("load_only_unseen", OBool true)],
        inr valid_ds) (trace (run ext setup w)) /\
    In (ECall "DataLoader" [train_ds]
          [("shuffle", OBool true); ("batch_size", OInt 64);
           ("collate_fn", OGlobal "zsl.utils.collate_image_folder")],
        inr train_dl) (trace (run ext setup w)) /\
    In (ECall "DataLoader" [valid_ds]
          [("batch_size", OInt 32);
           ("collate_fn", OGlobal "zsl.utils.collate_image_folder")],
        inr valid_dl) (trace (run ext setup w)) /\
    In (ECall "zsl.models.ZeroShot" [visual_fe; semantic_unit] [],
        inr zs_model) (trace (run ext setup w)) /\
    In (EMethod zs_model "to" [device] [], inr moved)
       (trace (run ext setup w)) /\
    In (EMethod zs_model "parameters" [] [], inr all)
       (trace (run ext setup w)) /\
    yields (trace (run ext setup w)) all items /\
    subsequence parameters items /\
    In (ECall "torch.optim.AdamW" [OList parameters; OFloat 1 (-4)]
          [("weight_decay", OFloat 9 (-5))], inr optimizer)
       (trace (run ext setup w)).
Proof.
  intro H. unfold setup in *. repeat success_step.
  match goal with
  | D : result (run _ cell_device _) = inr _,
    S : result (run _ cell_dataset _) = inr _,
    L : result (run _ (cell_loaders _) _) = inr (?train_ds, _, _, _),
    Z : result (run _ (cell_zero_shot ?vfe ?su _ _) _) = inr _,
    T : result (run _ (cell_to_device _ _) _) = inr _,
    O : result (run _ (cell_optimizer _) _) = inr _ |- _ =>
      destruct (cell_device_provenance _ _ _ _ D) as (name & D1);
      destruct (cell_dataset_provenance _ _ _ _ _ S) as (-> & _);
      destruct (cell_loaders_provenance _ _ _ _ _ _ _ _ L)
        as (L1 & L2 & L3 & L4);
      pose proof (cell_zero_shot_provenance _ _ _ _ _ _ _ _ Z) as Z1;
      destruct (cell_to_device_provenance _ _ _ _ _ _ T) as (moved & T1);
      destruct (cell_optimizer_flow _ _ _ _ _ O)
        as (all & items & parameters & O1 & O2 & O3 & O4);
      exists name, train_ds, vfe, su, moved, all, items, parameters
  end.
  repeat match goal with
         | |- _ /\ _ => split
         | |- In _ _ => in_hist
         | |- subsequence _ _ => assumption
         | |- yields _ _ _ =>
             eapply yields_incl; [|eassumption]; intros; in_hist
         end.
Qed.

(** What the epochs of [range(n)] are. *)
Lemma in_range k n : In k (range n) -> (0 <= k < n)%Z.
Proof.
  unfold range. rewrite in_map_iff. intros (i & <- & Hi).
  apply in_seq in Hi. lia.
Qed.

(** The operations of a run of the loop, as lines 423-429 write them. *)
Lemma loop_events (loop : Trace) epochs zs_model train_dl valid_dl optimizer
  device semantic_repr :
  prefix (map fst loop)
    (loop_calls epochs zs_model train_dl valid_dl optimizer device
       semantic_repr) ->
  forall e r, In (e, r) loop ->
    (exists epoch,
       In epoch epochs /\
       e = ECall "zsl.engine.train_epoch" []
             [("model", zs_model); ("dl", train_dl);
              ("optimizer", optimizer); ("epoch", OInt epoch);
              ("print_freq", OInt 300); ("device", device)]) \/
    e = ECall "zsl.engine.evaluate" []
          [("model", zs_model); ("dl", valid_dl);
           ("class_representations", semantic_repr); ("device", device)].
Proof.
  intros Hpre e r Hin. apply (in_map fst) in Hin. simpl in Hin.
  apply (prefix_in _ _ _ Hpre) in Hin. exact (in_loop_calls _ _ _ _ _ _ _ _ Hin).
Qed.

(** A run that reaches the engine: the setup has completed, the class
    representations were built, and what follows are the calls of the
    loop. *)
Lemma engine_reached W (ext : External W) w :
  view engine_call (trace (run ext notebook w)) <> [] ->
  exists zs_model train_dl valid_dl valid_ds optimizer device
         attr_matrix semantic_repr loop,
    result (run ext setup w) =
      inr (zs_model, train_dl, valid_dl, valid_ds, optimizer, device) /\
    trace (run ext notebook w) =
      trace (run ext setup w) ++
      (EGetAttr valid_ds "attr_matrix", inr attr_matrix) ::
      (ECall "torch.FloatTensor" [attr_matrix] [], inr semantic_repr) ::
      loop /\
    loop <> [] /\
    prefix (map fst loop)
      (loop_calls (range EPOCHS) zs_model train_dl valid_dl optimizer device
         semantic_repr).
Proof.
  intro Hsome.
  destruct (notebook_anatomy W ext w)
    as [[Hnone _]
       |(zs_model & train_dl & valid_dl & valid_ds & optimizer & device &
         attr_matrix & semantic_repr & loop & Hs & Ht & Hpre & _)].
  { contradiction. }
  exists zs_model, train_dl, valid_dl, valid_ds, optimizer, device,
    attr_matrix, semantic_repr, loop.
  split; [exact Hs|]. split; [exact Ht|]. split; [|exact Hpre].
  intros ->. apply Hsome. rewrite Ht, view_app.
  rewrite (silent engine_call setup setup_engine_silent W ext w).
  reflexivity.
Qed.

(** An engine call of a run that reached the engine is one of the loop. *)
Lemma engine_call_in_loop (pre loop : Trace) x y f args kw resp :
  view engine_call pre = [] ->
  engine_call (ECall f args kw) = [ECall f args kw] ->
  engine_call (fst x) = [] -> engine_call (fst y) = [] ->
  In (ECall f args kw, resp) (pre ++ x :: y :: loop) ->
  In (ECall f args kw, resp) loop.
Proof.
  intros Hpre He Hx Hy Hin.
  apply in_app_or in Hin as [Hin|[->|[->|Hin]]].
  - apply (in_view engine_call _ _ _ (ECall f args kw)) in Hin.
    + rewrite Hpre in Hin. destruct Hin.
    + rewrite He. now left.
  - cbn [fst] in Hx. rewrite He in Hx. discriminate Hx.
  - cbn [fst] in Hy. rewrite He in Hy. discriminate Hy.
  - exact Hin.
Qed.

(** *** The loop, for any number of epochs *)

Lemma prefix_cons_inv {X} (x y : X) a l :
  prefix (x :: a) (y :: l) -> x = y /\ prefix a l.
Proof. intros [rest H]. injection H as -> ->. split; [easy | now exists rest]. Qed.

Lemma loop_calls_length epochs zs_model train_dl valid_dl optimizer device
  semantic_repr :
  List.length (loop_calls epochs zs_model train_dl valid_dl optimizer device
                 semantic_repr) = 2 * List.length epochs.
Proof.
  induction epochs as [|e es IH]; [reflexivity|].
  cbn [loop_calls flat_map List.length app] in *.
  unfold loop_calls in IH. rewrite IH. lia.
Qed.

Lemma range_length n : List.length (range n) = Z.to_nat n.
Proof. unfold range. now rewrite length_map, length_seq. Qed.

(** The calls of the loop over [range(n)], epoch by epoch. *)
Lemma loop_calls_range n zs_model train_dl valid_dl optimizer device
  semantic_repr :
  loop_calls (range n) zs_model train_dl valid_dl optimizer device
    semantic_repr =
  flat_map
    (fun k =>
       [ECall "zsl.engine.train_epoch" []
          [("model", zs_model); ("dl", train_dl); ("optimizer", optimizer);
           ("epoch", OInt (Z.of_nat k)); ("print_freq", OInt 300);
           ("device", device)];
        ECall "zsl.engine.evaluate" []
          [("model", zs_model); ("dl", valid_dl);
           ("class_representations", semantic_repr); ("device", device)]])
    (seq 0 (Z.to_nat n)).
Proof.
  unfold loop_calls, range.
  induction (seq 0 (Z.to_nat n)) as [|k ks IH]; [reflexivity|].
  simpl. now rewrite IH.
Qed.

Lemma count_loop_prefix epochs zs_model train_dl valid_dl optimizer device
  semantic_repr : forall a,
  prefix a (loop_calls epochs zs_model train_dl valid_dl optimizer device
              semantic_repr) ->
  List.length (filter is_evaluate a) <=
    List.length (filter is_train_epoch a) <=
    List.length (filter is_evaluate a) + 1.
Proof.
  induction epochs as [|e es IH]; intros a Ha.
  - apply prefix_nil_inv in Ha. subst. simpl. lia.
  - cbn [loop_calls flat_map app] in Ha.
    destruct a as [|x a]; [simpl; lia|].
    apply prefix_cons_inv in Ha as [-> Ha].
    destruct a as [|y a]; [simpl; lia|].
    apply prefix_cons_inv in Ha as [-> Ha].
    specialize (IH a Ha). simpl. lia.
Qed.

Lemma count_loop_all epochs zs_model train_dl valid_dl optimizer device
  semantic_repr :
  List.length
    (filter is_train_epoch
       (loop_calls epochs zs_model train_dl valid_dl optimizer device
          semantic_repr)) = List.length epochs /\
  List.length
    (filter is_evaluate
       (loop_calls epochs zs_model train_dl valid_dl optimizer device
          semantic_repr)) = List.length epochs.
Proof.
  induction epochs as [|e es [IH1 IH2]]; [now split|].
  cbn [loop_calls flat_map app]. simpl. unfold loop_calls in IH1, IH2.
  now rewrite IH1, IH2.
Qed.

(** *** The first sample *)

Lemma unpack3_yields W (ext : External W) w o a b c :
  result (run ext (unpack3 o) w) = inr (a, b, c) ->
  yields (trace (run ext (unpack3 o) w)) o [a; b; c].
Proof.
  intro H. unfold unpack3 in *. success_step.
  apply iterate_yields in Hp.
  destruct a0 as [|x [|y [|z [|u l]]]]; simpl in H;
    try (unfold unpack_error in H; simpl in H; discriminate H).
  injection H as -> -> ->. now apply yields_app_l.
Qed.

(** The sample that a completed cell of lines 124-126 has read. *)
Lemma cell_sample_provenance W (ext : External W) w
  ds features target semantic :
  result (run ext (cell_sample ds) w) = inr (features, target, semantic) ->
  exists item,
    In (EGetItem ds (OInt 0), inr item)
       (trace (run ext (cell_sample ds) w)) /\
    yields (trace (run ext (cell_sample ds) w)) item
      [features; target; semantic].
Proof.
  intro H. unfold cell_sample, getitem, getattr, print, call in *.
  success_step. success_step. apply unpack3_yields in Hp0.
  repeat success_step.
  match goal with
  | I : trace (run _ (perform (EGetItem ds _)) _) = [(_, inr ?item)] |- _ =>
      exists item; rewrite I
  end.
  split; [in_hist|]. apply yields_app_r, yields_app_l. eassumption.
Qed.

(** *** What the notebook calls *)

Lemma notebook_unlisted_silent : emits unlisted notebook [].
Proof. emits_auto. Qed.

Lemma view_nil_forall {X} (obs : Event -> list X) t :
  view obs t = [] -> Forall (fun en => obs (fst en) = []) t.
Proof.
  induction t as [|en t IH]; [constructor|].
  unfold view; simpl. intro H. apply app_eq_nil in H as [H1 H2].
  constructor; [exact H1 | now apply IH].
Qed.

Lemma in_view_inv {X} (obs : Event -> list X) t x :
  In x (view obs t) -> exists e r, In (e, r) t /\ In x (obs e).
Proof.
  unfold view. rewrite in_flat_map. intros ([e r] & Hin & Hx).
  now exists e, r.
Qed.

Lemma name_of_import e module :
  In (inl module) (name_of e) -> e = EImport module.
Proof.
  destruct e; cbn [name_of In]; try tauto; intros [H|[]];
    try discriminate H.
  now injection H as ->.
Qed.

Lemma name_of_call e f :
  In (inr f) (name_of e) -> exists args kw, e = ECall f args kw.
Proof.
  destruct e; cbn [name_of In]; try tauto; intros [H|[]];
    try discriminate H.
  injection H as ->. now exists args, kwargs.
Qed.

(** A completed run imports and calls by name what the nominal run
    does, in the same order. *)
Lemma notebook_names :
  emits name_of notebook (view name_of (trace (run nominal notebook 0))).
Proof. emits_auto. Qed.

(** *** The forward passes of the notebook *)

Lemma forward_check_silent before e r :
  forward_call e = [] -> forward_check before e r.
Proof. intros He m f s kw ->. discriminate He. Qed.

Ltac forward_silent :=
  apply (keeps_silent forward_check forward_call);
  [ exact forward_check_silent | emits_auto ].

(** An operation that is not a call on two arguments, and what it
    answered. *)
Ltac forward_step :=
  apply keeps_bind;
  [ apply keeps_perform; intros ? ? ? ? ? Hno; discriminate Hno
  | let v := fresh "v" in
    let Hv := fresh "Hv" in
    intros ? ? ? v Hv; apply perform_success in Hv; rewrite Hv; clear Hv ].

Lemma cell_shapes_provenance W (ext : External W) w semantic_unit visual_fe
  features raw semantic :
  result (run ext (cell_shapes semantic_unit visual_fe features raw) w) =
    inr semantic ->
  In (ECall "torch.FloatTensor" [raw] [], inr semantic)
     (trace (run ext (cell_shapes semantic_unit visual_fe features raw) w)).
Proof.
  intro H. unfold cell_shapes, print, call, method, apply in *.
  repeat success_step.
  match goal with
  | H1 : trace (run _ (perform (ECall "torch.FloatTensor" _ _)) _) = _
    |- _ => rewrite H1
  end.
  in_hist.
Qed.

Lemma cell_zero_shot_keeps c visual_fe semantic_unit ds item features target
  raw semantic :
  In (EGetItem ds (OInt 0), inr item) c ->
  yields c item [features; target; raw] ->
  In (ECall "torch.FloatTensor" [raw] [], inr semantic) c ->
  keeps forward_check c
    (cell_zero_shot visual_fe semantic_unit features semantic).
Proof.
  intros Hitem Hyields Hsem.
  unfold cell_zero_shot, zs_model_call, call, method, apply.
  do 4 forward_step. apply keeps_bind.
  { apply keeps_perform. intros r m f s kw Heq. injection Heq as <- <- <- <-.
    split; [reflexivity|]. split; [exists visual_fe, semantic_unit; in_hist|].
    left. exists ds, item, features, target, raw, semantic, v1.
    repeat split; try in_hist.
    now repeat apply yields_app_l. }
  intros Wo exto wo out Hout. apply perform_success in Hout. rewrite Hout.
  apply keeps_bind.
  { apply (keeps_silent forward_check forward_call);
      [exact forward_check_silent | now apply emits_unpack2]. }
  intros Wp extp wp [image_embed semantic_embed] _.
  do 2 forward_step. apply keeps_ret.
Qed.

Lemma cell_batch_keeps c visual_fe semantic_unit zs_model train_ds train_dl
  device_name device moved :
  In (ECall "zsl.models.ZeroShot" [visual_fe; semantic_unit] [],
      inr zs_model) c ->
  In (ECall "DataLoader" [train_ds]
        [("shuffle", OBool true); ("batch_size", OInt 64);
         ("collate_fn", OGlobal "zsl.utils.collate_image_folder")],
      inr train_dl) c ->
  In (ECall "torch.device" [OStr device_name] [], inr device) c ->
  In (EMethod zs_model "to" [device] [], inr moved) c ->
  keeps forward_check c (cell_batch zs_model train_dl device).
Proof.
  intros Hzs Hdl Hdev Hto. unfold cell_batch, call, method, apply.
  do 2 forward_step. apply keeps_bind.
  { apply (keeps_silent forward_check forward_call);
      [exact forward_check_silent | now apply emits_unpack3]. }
  intros Wb extb wb [[features labels] semantics] Hbatch.
  apply unpack3_yields in Hbatch.
  do 2 forward_step. apply keeps_bind.
  { apply keeps_perform. intros r m f s kw Heq. injection Heq as <- <- <- <-.
    split; [reflexivity|]. split; [exists visual_fe, semantic_unit; in_hist|].
    right.
    exists train_ds, train_dl, v, v0, features, labels, semantics,
      device_name, device, moved.
    repeat split; try in_hist.
    apply yields_app_l, yields_app_l, yields_app_r, Hbatch. }
  intros Wo exto wo out Hout. apply perform_success in Hout. rewrite Hout.
  apply keeps_bind.
  { apply (keeps_silent forward_check forward_call);
      [exact forward_check_silent | now apply emits_unpack2]. }
  intros Wp extp wp [images_embeds semantics_embeds] _.
  do 2 forward_step. apply keeps_ret.
Qed.

Lemma notebook_forward_checked : keeps forward_check [] notebook.
Proof.
  unfold notebook. apply keeps_bind.
  - unfold setup.
    apply keeps_bind; [forward_silent|]. intros W0 ext0 w0 a0 _.
    apply keeps_bind; [forward_silent|]. intros W1 ext1 w1 a1 _.
    apply keeps_bind; [forward_silent|]. intros W2 ext2 w2 device Hdev.
    apply cell_device_provenance in Hdev as (device_name & Hdev).
    apply keeps_bind; [forward_silent|]. intros W3 ext3 w3 [fe ds] _.
    apply keeps_bind; [forward_silent|].
    intros W4 ext4 w4 [[features target] raw] Hsample.
    apply cell_sample_provenance in Hsample as (item & Hitem & Hyields).
    apply keeps_bind; [forward_silent|].
    intros W5 ext5 w5 [[[train_ds valid_ds] train_dl] valid_dl] Hload.
    apply cell_loaders_provenance in Hload as (_ & _ & Hdl & _).
    apply keeps_bind; [forward_silent|]. intros W6 ext6 w6 a6 _.
    apply keeps_bind; [forward_silent|].
    intros W7 ext7 w7 [semantic_unit visual_fe] _.
    apply keeps_bind; [forward_silent|].
    intros W8 ext8 w8 semantic Hsem.
    apply cell_shapes_provenance in Hsem.
    apply keeps_bind.
    { apply (cell_zero_shot_keeps _ _ _ ds item features target raw);
        [in_hist | | in_hist].
      do 4 apply yields_app_l. apply yields_app_r, Hyields. }
    intros W9 ext9 w9 zs_model Hzs.
    apply cell_zero_shot_provenance in Hzs.
    apply keeps_bind; [forward_silent|]. intros W10 ext10 w10 a10 Hto.
    apply cell_to_device_provenance in Hto as (moved & Hto).
    apply keeps_bind.
    { apply (cell_batch_keeps _ visual_fe semantic_unit _ train_ds train_dl
               device_name device moved); in_hist. }
    intros W11 ext11 w11 a11 _.
    apply keeps_bind; [forward_silent|]. intros W12 ext12 w12 optimizer _.
    apply keeps_ret.
  - intros W ext w a _. split_pairs. forward_silent.
Qed.

(** *** How the pipeline is put together *)

Lemma construction_check_silent before e r :
  construction_call e = [] -> construction_check before e r.
Proof.
  intro He. unfold construction_check.
  split; [|split; [|split; [|split]]]; intros; subst e;
    try discriminate He.
  match goal with Hf : _ \/ _ |- _ => destruct Hf as [-> | ->] end;
    discriminate He.
Qed.

Ltac construction_silent :=
  apply (keeps_silent construction_check construction_call);
  [ exact construction_check_silent | emits_auto ].

(** An operation that constructs nothing of the pipeline, and what it
    answered. *)
Ltac construction_step :=
  apply keeps_bind;
  [ apply keeps_perform; intro; apply construction_check_silent; reflexivity
  | let v := fresh "v" in
    let Hv := fresh "Hv" in
    intros ? ? ? v Hv; apply perform_success in Hv; rewrite Hv; clear Hv ].

(** Take the clause of the check that speaks of the operation at hand. *)
Ltac construction_clause :=
  intro; unfold construction_check;
  split; [|split; [|split; [|split]]]; intros;
  lazymatch goal with
  | Heq : ECall _ _ _ = ECall ?f _ _, Hf : ?f = _ \/ ?f = _ |- _ =>
      injection Heq as <- <- <-;
      first [ destruct Hf as [Hf|Hf]; discriminate Hf | clear Hf ]
  | Heq : ECall _ _ _ = ECall _ _ _ |- _ =>
      first [ discriminate Heq | injection Heq as <- <- ]
  | Heq : _ = ECall _ _ _ |- _ => discriminate Heq
  end.

Lemma cell_loaders_keeps c :
  keeps construction_check c (cell_loaders (OStr "ResNet101")).
Proof.
  unfold cell_loaders, train_ds_call, valid_ds_call, train_dl_call,
    valid_dl_call, train_ds_kwargs, valid_ds_kwargs, AwA2.
  do 2 construction_step.
  apply keeps_bind.
  { apply keeps_perform. construction_clause.
    eexists _, _. split; [reflexivity | in_hist]. }
  intros Wl extl wl train_dl Hdl. apply perform_success in Hdl. rewrite Hdl.
  apply keeps_bind.
  { apply keeps_perform. construction_clause.
    eexists _, _. split; [reflexivity | in_hist]. }
  intros Wm extm wm valid_dl _. apply keeps_ret.
Qed.

Lemma cell_modules_keeps c train_ds ds item features target semantic :
  In (ECall "zsl.data.AwAFeaturesDataset"
        [OStr "../data/AwA2/Animals_with_Attributes2"]
        [("features_type", OStr "ResNet101"); ("load_unseen", OBool false)],
      inr train_ds) c ->
  In (ECall "zsl.data.AwAFeaturesDataset"
        [OStr "../data/AwA2/Animals_with_Attributes2"]
        [("features_type", OStr "ResNet101")], inr ds) c ->
  In (EGetItem ds (OInt 0), inr item) c ->
  yields c item [features; target; semantic] ->
  keeps construction_check c (cell_modules train_ds features).
Proof.
  intros Htrain Hds Hitem Hyields.
  unfold cell_modules, semantic_unit_call, visual_fe_call, out_features,
    getattr, call, method.
  do 2 construction_step.
  apply keeps_bind.
  { apply keeps_perform. construction_clause.
    exists train_ds, v, v0.
    split; [reflexivity|]. split; [reflexivity|]. repeat split; in_hist. }
  intros Wl extl wl semantic_unit Hsu. apply perform_success in Hsu.
  rewrite Hsu. construction_step.
  apply keeps_bind.
  { apply keeps_perform. construction_clause.
    exists ds, item, features, target, semantic, v1.
    split; [reflexivity|]. split; [reflexivity|].
    split; [in_hist|]. split; [in_hist|]. split; [|in_hist].
    now repeat apply yields_app_l. }
  intros Wm extm wm visual_fe _. apply keeps_ret.
Qed.

Lemma cell_zero_shot_wraps c visual_fe semantic_unit size n_attrs features
  semantic :
  In (ECall "zsl.models.Identity" [size] [], inr visual_fe) c ->
  In (ECall "zsl.models.LinearSemanticUnit" []
        [("in_features", n_attrs); ("out_features", OInt 1024)],
      inr semantic_unit) c ->
  keeps construction_check c
    (cell_zero_shot visual_fe semantic_unit features semantic).
Proof.
  intros Hvfe Hsu. unfold cell_zero_shot, zs_model_call.
  apply keeps_bind.
  { apply keeps_perform. construction_clause.
    exists visual_fe, semantic_unit, size, n_attrs.
    split; [reflexivity|]. split; [reflexivity|]. split; in_hist. }
  intros Wl extl wl zs_model _. construction_silent.
Qed.

Lemma epoch_loop_keeps c epochs visual_fe semantic_unit zs_model train_ds
  train_kw train_dl valid_ds valid_kw valid_dl optimizer device
  semantic_repr :
  In (ECall "zsl.models.ZeroShot" [visual_fe; semantic_unit] [],
      inr zs_model) c ->
  In (ECall "DataLoader" [train_ds] train_kw, inr train_dl) c ->
  In (ECall "DataLoader" [valid_ds] valid_kw, inr valid_dl) c ->
  keeps construction_check c
    (epoch_loop epochs zs_model train_dl valid_dl optimizer device
       semantic_repr).
Proof.
  intros Hzs Htrain Hvalid.
  unfold epoch_loop, train_epoch_call, evaluate_call.
  apply (keeps_for construction_check
           (fun t =>
              In (ECall "zsl.models.ZeroShot" [visual_fe; semantic_unit] [],
                  inr zs_model) t /\
              In (ECall "DataLoader" [train_ds] train_kw, inr train_dl) t /\
              In (ECall "DataLoader" [valid_ds] valid_kw, inr valid_dl) t)).
  - intros h t (H1 & H2 & H3). repeat split; apply in_or_app; now left.
  - intros h epoch (H1 & H2 & H3).
    apply keeps_bind.
    { apply keeps_perform. construction_clause.
      exists zs_model, train_dl, visual_fe, semantic_unit, train_ds, train_kw.
      split; [reflexivity|]. split; [simpl; auto|]. split; [simpl; auto|].
      split; assumption. }
    intros Wl extl wl a _. apply keeps_bind.
    { apply keeps_perform. construction_clause.
      exists zs_model, valid_dl, visual_fe, semantic_unit, valid_ds, valid_kw.
      split; [reflexivity|]. split; [simpl; auto|]. split; [simpl; auto|].
      split; in_hist. }
    intros Wm extm wm a1 _. apply keeps_ret.
  - repeat split; assumption.
Qed.

Lemma notebook_construction_checked : keeps construction_check [] notebook.
Proof.
  unfold notebook. apply keeps_bind.
  - unfold setup.
    apply keeps_bind; [construction_silent|]. intros W0 ext0 w0 a0 _.
    apply keeps_bind; [construction_silent|]. intros W1 ext1 w1 a1 _.
    apply keeps_bind; [construction_silent|]. intros W2 ext2 w2 device _.
    apply keeps_bind; [construction_silent|]. intros W3 ext3 w3 [fe ds] Hds.
    apply cell_dataset_provenance in Hds as (-> & Hds).
    apply keeps_bind; [construction_silent|].
    intros W4 ext4 w4 [[features target] semantic] Hsample.
    apply cell_sample_provenance in Hsample as (item & Hitem & Hyields).
    apply keeps_bind; [apply cell_loaders_keeps|].
    intros W5 ext5 w5 [[[train_ds valid_ds] train_dl] valid_dl] Hload.
    apply cell_loaders_provenance in Hload as (Htrain & _).
    apply keeps_bind; [construction_silent|]. intros W6 ext6 w6 a6 _.
    apply keeps_bind.
    { apply (cell_modules_keeps _ train_ds ds item features target semantic);
        [in_hist | in_hist | in_hist |].
      do 2 apply yields_app_l. apply yields_app_r, Hyields. }
    intros W7 ext7 w7 [semantic_unit visual_fe] Hmod.
    apply cell_modules_provenance in Hmod
      as (attrs & n_attrs & size & _ & _ & Hsu & _ & Hvfe).
    apply keeps_bind; [construction_silent|].
    intros W8 ext8 w8 semantic' _.
    apply keeps_bind.
    { apply (cell_zero_shot_wraps _ visual_fe semantic_unit size n_attrs);
        in_hist. }
    intros W9 ext9 w9 zs_model _.
    apply keeps_bind; [construction_silent|]. intros W10 ext10 w10 a10 _.
    apply keeps_bind; [construction_silent|]. intros W11 ext11 w11 a11 _.
    apply keeps_bind; [construction_silent|].
    intros W12 ext12 w12 optimizer _. apply keeps_ret.
  - intros W ext w [[[[[zs_model train_dl] valid_dl] valid_ds] optimizer]
                    device] Hs.
    destruct (setup_flow W ext w _ _ _ _ _ _ Hs)
      as (device_name & train_ds & visual_fe & semantic_unit & moved & all &
          items & parameters & _ & _ & _ & Htrain & Hvalid & Hzs & _).
    unfold cell_train, getattr, call.
    do 2 construction_step.
    eapply epoch_loop_keeps; in_hist.
Qed.

(** *** What the dataset objects produce *)















End NotebookFlow.

(** ** The notebook: the statements *)

Module NotebookSpec.
Import Python Notebook Observe History RunFacts NotebookViews NotebookChecks
  NotebookFacts HistoryFacts NotebookFlow.

(** C1.  The notebook is a linear pipeline.  Every run goes through the
    stages in the order dataset, dataset, dataset, loader, loader,
    semantic unit, identity module, comparison model, and then eight times
    [train_epoch] followed by [evaluate]; a run that stops early has gone
    through an initial segment of that order.  The stages are built on
    each other: whenever a loader is constructed, it is constructed over
    a dataset that [zsl.data.AwAFeaturesDataset] returned; whenever
    [zsl.models.ZeroShot] is called, it is called on the module that
    [zsl.models.Identity] returned and the module that
    [zsl.models.LinearSemanticUnit] returned; and whenever [train_epoch]
    or [evaluate] is called, its model is what [zsl.models.ZeroShot]
    returned and its loader what [DataLoader] returned.  Every run splits
    into a part without engine calls and a part that consists of the
    calls [train_epoch], [evaluate], alternating, with no other operation
    in between. *)
Theorem pipeline_order W (ext : External W) (w : W) :
  let construction :=
    [Dataset; Dataset; Dataset; Loader; Loader;
     SemanticUnit; IdentityModule; Comparison] in
  let t := trace (run ext notebook w) in
  prefix (view stage_of t)
    (construction ++ List.concat (repeat [TrainEpoch; Evaluate] 8)) /\
  (forall r, result (run ext notebook w) = inr r ->
     view stage_of t =
     construction ++ List.concat (repeat [TrainEpoch; Evaluate] 8)) /\
  (forall before e resp rest,
     t = before ++ (e, resp) :: rest ->
     (forall args kw, e = ECall "DataLoader" args kw ->
        exists ds dkw,
          args = [ds] /\
          In (ECall "zsl.data.AwAFeaturesDataset"
                [OStr "../data/AwA2/Animals_with_Attributes2"]
                (("features_type", OStr "ResNet101") :: dkw), inr ds)
             before) /\
     (forall args kw, e = ECall "zsl.models.ZeroShot" args kw ->
        exists visual_fe semantic_unit size n_attrs,
          args = [visual_fe; semantic_unit] /\
          kw = [] /\
          In (ECall "zsl.models.Identity" [size] [], inr visual_fe) before /\
          In (ECall "zsl.models.LinearSemanticUnit" []
                [("in_features", n_attrs); ("out_features", OInt 1024)],
              inr semantic_unit) before) /\
     (forall f args kw, e = ECall f args kw ->
        f = "zsl.engine.train_epoch" \/ f = "zsl.engine.evaluate" ->
        exists zs_model dl visual_fe semantic_unit ds dkw,
          args = [] /\
          In ("model", zs_model) kw /\
          In ("dl", dl) kw /\
          In (ECall "zsl.models.ZeroShot" [visual_fe; semantic_unit] [],
              inr zs_model) before /\
          In (ECall "DataLoader" [ds] dkw, inr dl) before)) /\
  exists pre loop,
    t = pre ++ loop /\
    view engine_call pre = [] /\
    prefix (map (fun en => stage_of (fst en)) loop)
      (List.concat (repeat [[TrainEpoch]; [Evaluate]] 8)) /\
    (forall r, result (run ext notebook w) = inr r ->
       view stage_of pre = construction /\
       map (fun en => stage_of (fst en)) loop =
       List.concat (repeat [[TrainEpoch]; [Evaluate]] 8)).
Proof.
  cbv zeta.
  destruct (notebook_stages W ext w) as [Hpre Hall].
  split; [exact Hpre|]. split; [exact Hall|]. split.
  { intros before e resp rest Heq.
    destruct (run_checked construction_check notebook
                notebook_construction_checked W ext w before e resp rest Heq)
      as (Hloader & _ & _ & Hwrap & Hengine).
    split; [exact Hloader|]. split; [exact Hwrap | exact Hengine]. }
  pose proof (silent engine_call setup setup_engine_silent W ext w) as Hsil.
  destruct (notebook_anatomy W ext w)
    as [[Hnone [x Hx]]
       |(zs_model & train_dl & valid_dl & valid_ds & optimizer & device &
         attr_matrix & semantic_repr & loop & Hs & Ht & Hloop & Hdone)].
  - exists (trace (run ext notebook w)), [].
    split; [now rewrite app_nil_r|]. split; [exact Hnone|].
    split; [apply prefix_nil|]. intros r Hr. rewrite Hx in Hr. discriminate.
  - exists (trace (run ext setup w) ++
            [(EGetAttr valid_ds "attr_matrix", inr attr_matrix);
             (ECall "torch.FloatTensor" [attr_matrix] [],
              inr semantic_repr)]),
      loop.
    split; [rewrite Ht, <- app_assoc; reflexivity|].
    split; [rewrite view_app, Hsil; reflexivity|].
    split.
    + destruct Hloop as [more Hmore]. exists (map stage_of more).
      transitivity (map stage_of (map fst loop ++ more)).
      * rewrite <- Hmore. reflexivity.
      * rewrite map_app, map_map. reflexivity.
    + intros r Hr. split.
      * rewrite view_app.
        destruct (setup_stages W ext w) as [_ Hsetup].
        rewrite (Hsetup _ Hs). reflexivity.
      * transitivity (map stage_of (map fst loop));
          [symmetry; apply map_map|].
        rewrite (Hdone r Hr). reflexivity.
Qed.

(** In the nominal world the notebook completes and shows the whole
    pipeline. *)
Lemma pipeline_order_witness :
  result (run nominal notebook 0) = inr tt /\
  view stage_of (trace (run nominal notebook 0)) =
    [Dataset; Dataset; Dataset; Loader; Loader;
     SemanticUnit; IdentityModule; Comparison] ++
    List.concat (repeat [TrainEpoch; Evaluate] 8).
Proof.
  assert (H : result (run nominal notebook 0) = inr tt)
    by (vm_compute; reflexivity).
  split; [exact H|].
  exact (proj1 (proj2 (pipeline_order nat nominal 0)) tt H).
Defined.




(** C6.  The notebook contains no exception handler, and an exception
    raised by an external operation escapes unchanged: the operation that
    raised is the last operation of the run (nothing is retried and
    nothing else runs), and what it raised is the result of the run. *)
Theorem exceptions_escape_unchanged W (ext : External W) (w : W)
  t1 e x t2 :
  trace (run ext notebook w) = t1 ++ (e, inl x) :: t2 ->
  handler_free notebook /\
  t2 = [] /\ result (run ext notebook w) = inl x.
Proof.
  intro Ht. split; [exact notebook_handler_free|].
  exact (handler_free_propagates ext notebook notebook_handler_free
           w t1 e x t2 Ht).
Qed.

(** The world in which training fails in epoch 3: the failed call is the
    last operation of the run and its exception is the result. *)
Lemma exceptions_escape_witness :
  trace (run (failing 3) notebook 0) =
    removelast (trace (run (failing 3) notebook 0)) ++
    (train_epoch_call (ORef 129) (ORef 75) (ORef 189) 3 (ORef 45),
     inl OutOfMemory) :: [] /\
  (handler_free notebook /\
   @nil (Event * Response) = [] /\
   result (run (failing 3) notebook 0) = inl OutOfMemory).
Proof.
  assert (H : trace (run (failing 3) notebook 0) =
              removelast (trace (run (failing 3) notebook 0)) ++
              (train_epoch_call (ORef 129) (ORef 75) (ORef 189) 3 (ORef 45),
               inl OutOfMemory) :: [])
    by (vm_compute; reflexivity).
  split; [exact H|].
  exact (exceptions_escape_unchanged nat (failing 3) 0 _ _ _ _ H).
Defined.

(** C7.  [EPOCHS] is 8, and the calls into [zsl.engine] of a completed run
    are exactly sixteen: [train_epoch] with [epoch=0] then [evaluate],
    [train_epoch] with [epoch=1] then [evaluate], and so on up to
    [train_epoch] with [epoch=7] then [evaluate]: eight iterations, the
    epochs 0 to 7 in order, training before evaluation in each.  A run
    that stops early has made an initial segment of these calls. *)
Theorem eight_epochs W (ext : External W) (w : W) :
  EPOCHS = 8%Z /\
  exists zs_model train_dl valid_dl optimizer device semantic_repr,
    let train_epoch epoch :=
      ECall "zsl.engine.train_epoch" []
        [("model", zs_model); ("dl", train_dl); ("optimizer", optimizer);
         ("epoch", OInt epoch); ("print_freq", OInt 300);
         ("device", device)] in
    let evaluate :=
      ECall "zsl.engine.evaluate" []
        [("model", zs_model); ("dl", valid_dl);
         ("class_representations", semantic_repr); ("device", device)] in
    let calls :=
      [train_epoch 0%Z; evaluate; train_epoch 1%Z; evaluate;
       train_epoch 2%Z; evaluate; train_epoch 3%Z; evaluate;
       train_epoch 4%Z; evaluate; train_epoch 5%Z; evaluate;
       train_epoch 6%Z; evaluate; train_epoch 7%Z; evaluate] in
    prefix (view engine_call (trace (run ext notebook w))) calls /\
    (forall r, result (run ext notebook w) = inr r ->
       view engine_call (trace (run ext notebook w)) = calls).
Proof.
  split; [reflexivity|].
  destruct (notebook_anatomy W ext w)
    as [[Hnone [x Hx]]
       |(zs_model & train_dl & valid_dl & valid_ds & optimizer & device &
         attr_matrix & semantic_repr & loop & Hs & Ht & Hpre & Hloop)].
  - exists ONone, ONone, ONone, ONone, ONone, ONone. cbv zeta.
    rewrite Hnone, Hx. split; [apply prefix_nil | discriminate].
  - exists zs_model, train_dl, valid_dl, optimizer, device, semantic_repr.
    cbv zeta.
    assert (Hview : view engine_call (trace (run ext notebook w)) =
                    map fst loop).
    { rewrite Ht, view_app.
      rewrite (silent engine_call setup setup_engine_silent W ext w).
      simpl. exact (loop_trace_engine _ _ _ _ _ _ _ _ Hpre). }
    rewrite Hview. split; [exact Hpre | exact Hloop].
Qed.

(** In the nominal world the sixteen calls are all made: the first is
    [train_epoch] with [epoch=0] and the last but one [train_epoch] with
    [epoch=7]. *)
Lemma eight_epochs_witness :
  result (run nominal notebook 0) = inr tt /\
  exists zs_model train_dl optimizer device,
    nth_error (view engine_call (trace (run nominal notebook 0))) 14 =
    Some (ECall "zsl.engine.train_epoch" []
            [("model", zs_model); ("dl", train_dl); ("optimizer", optimizer);
             ("epoch", OInt 7); ("print_freq", OInt 300);
             ("device", device)]).
Proof.
  assert (H : result (run nominal notebook 0) = inr tt)
    by (vm_compute; reflexivity).
  split; [exact H|].
  destruct (proj2 (eight_epochs nat nominal 0))
    as (zs_model & train_dl & valid_dl & optimizer & device & semantic_repr &
        _ & Hall).
  exists zs_model, train_dl, optimizer, device.
  rewrite (Hall tt H). reflexivity.
Defined.

(** C9.  Whenever [evaluate] is called, the run has this shape: a setup in
    which [valid_ds] was constructed and no engine call was made; the read
    of [valid_ds.attr_matrix] and the call of [torch.FloatTensor] on it,
    whose response is [semantic_repr]; and then engine calls only, so that
    nothing is assigned inside the loop.  Every call of [evaluate] of the
    run is passed that same object as [class_representations]. *)
Theorem class_representations_fixed W (ext : External W) (w : W)
  args kw resp :
  In (ECall "zsl.engine.evaluate" args kw, resp)
     (trace (run ext notebook w)) ->
  exists fe valid_ds attr_matrix semantic_repr pre loop,
    trace (run ext notebook w) =
      pre ++
      (EGetAttr valid_ds "attr_matrix", inr attr_matrix) ::
      (ECall "torch.FloatTensor" [attr_matrix] [], inr semantic_repr) ::
      loop /\
    In (valid_ds_call fe, inr valid_ds) pre /\
    view engine_call pre = [] /\
    view engine_call loop = map fst loop /\
    (forall args' kw' resp',
       In (ECall "zsl.engine.evaluate" args' kw', resp')
          (trace (run ext notebook w)) ->
       In ("class_representations", semantic_repr) kw').
Proof.
  intro Hin.
  pose proof (silent engine_call setup setup_engine_silent W ext w) as Hsil.
  destruct (notebook_anatomy W ext w)
    as [[Hnone _]
       |(zs_model & train_dl & valid_dl & valid_ds & optimizer & device &
         attr_matrix & semantic_repr & loop & Hs & Ht & Hpre & _)].
  { apply (in_view engine_call _ _ _ (ECall "zsl.engine.evaluate" args kw))
      in Hin; [|simpl; auto].
    rewrite Hnone in Hin. destruct Hin. }
  destruct (setup_wiring W ext w _ _ _ _ _ _ Hs)
    as (fe & features & train_ds & attrs & n_attrs & size & su & vfe &
        _ & Hvalid & _).
  exists fe, valid_ds, attr_matrix, semantic_repr,
    (trace (run ext setup w)), loop.
  split; [exact Ht|]. split; [exact Hvalid|]. split; [exact Hsil|].
  split; [exact (loop_trace_engine _ _ _ _ _ _ _ _ Hpre)|].
  intros args' kw' resp' Hin'. rewrite Ht in Hin'.
  apply in_app_or in Hin' as [Hin'|[Hin'|[Hin'|Hin']]].
  - apply (in_view engine_call _ _ _ (ECall "zsl.engine.evaluate" args' kw'))
      in Hin'; [|simpl; auto].
    rewrite Hsil in Hin'. destruct Hin'.
  - discriminate Hin'.
  - discriminate Hin'.
  - apply (in_map fst) in Hin'. simpl in Hin'.
    apply (prefix_in _ _ _ Hpre) in Hin'.
    exact (evaluate_in_loop _ _ _ _ _ _ _ _ _ Hin').
Qed.

(** In the nominal world [evaluate] is called, and every call gets the
    same object. *)
Lemma class_representations_witness :
  In (evaluate_call (ORef 129) (ORef 78) (ORef 195) (ORef 45),
      inr (ORef 201))
     (trace (run nominal notebook 0)) /\
  exists semantic_repr,
    forall args' kw' resp',
      In (ECall "zsl.engine.evaluate" args' kw', resp')
         (trace (run nominal notebook 0)) ->
      In ("class_representations", semantic_repr) kw'.
Proof.
  assert (H : In (evaluate_call (ORef 129) (ORef 78) (ORef 195) (ORef 45),
                  inr (ORef 201))
                 (trace (run nominal notebook 0))).
  { apply (nth_error_In _ 67). vm_compute. reflexivity. }
  split; [exact H|].
  destruct (class_representations_fixed nat nominal 0 _ _ _ H)
    as (fe & valid_ds & attr_matrix & semantic_repr & pre & loop &
        _ & _ & _ & _ & Hall).
  exists semantic_repr. exact Hall.
Defined.

(** C8.  Whenever [torch.optim.AdamW] is called, its first argument is a
    list (with the learning rate 1e-4 and the weight decay 9e-5 of line
    273) in which every parameter had its [requires_grad] read, and found
    true, before the call: the list is filtered before the optimizer is
    constructed.  When the reads answer with booleans, as the tensor
    library does, each parameter of the list was read as [True].  A
    parameter whose [requires_grad] only ever reads [False] is not in the
    list. *)
Theorem optimizer_parameters_require_grad W (ext : External W) (w : W)
  before args kw resp rest :
  trace (run ext notebook w) =
    before ++ (ECall "torch.optim.AdamW" args kw, resp) :: rest ->
  exists parameters,
    args = [OList parameters; OFloat 1 (-4)] /\
    kw = [("weight_decay", OFloat 9 (-5))] /\
    Forall (fun p =>
              exists flag,
                In (EGetAttr p "requires_grad", inr flag) before /\
                holds before flag)
           parameters /\
    ((forall p flag,
        In (EGetAttr p "requires_grad", inr flag) before ->
        exists b, flag = OBool b) ->
     Forall (fun p => In (EGetAttr p "requires_grad", inr (OBool true)) before)
            parameters) /\
    (forall p,
       (forall flag,
          In (EGetAttr p "requires_grad", inr flag)
             (trace (run ext notebook w)) -> flag = OBool false) ->
       ~ In p parameters).
Proof.
  intro Heq.
  destruct (notebook_filtered W ext w before args kw resp rest Heq)
    as (ps & Hcall & Hps).
  injection Hcall as -> ->.
  exists ps. split; [reflexivity|]. split; [reflexivity|].
  split; [exact Hps|]. split.
  - intro Hbool. eapply Forall_impl; [|exact Hps].
    intros p (flag & Hread & Hholds).
    destruct (Hbool p flag Hread) as [b ->]. simpl in Hholds.
    now rewrite Hholds in Hread.
  - intros p Hfalse Hp. rewrite Forall_forall in Hps.
    destruct (Hps p Hp) as (flag & Hread & Hholds).
    assert (Hflag : flag = OBool false).
    { apply Hfalse. rewrite Heq. apply in_or_app. now left. }
    rewrite Hflag in Hholds. discriminate Hholds.
Qed.

(** In the nominal world the model has three parameters, the second of
    them frozen; the optimizer is handed the other two, each read as
    [True]. *)
Lemma optimizer_parameters_witness :
  trace (run nominal notebook 0) =
    firstn 63 (trace (run nominal notebook 0)) ++
    (ECall "torch.optim.AdamW" [OList [ORef 177; ORef 179]; OFloat 1 (-4)]
       [("weight_decay", OFloat 9 (-5))], inr (ORef 189)) ::
    skipn 64 (trace (run nominal notebook 0)) /\
  Forall (fun p =>
            In (EGetAttr p "requires_grad", inr (OBool true))
               (firstn 63 (trace (run nominal notebook 0))))
         [ORef 177; ORef 179].
Proof.
  assert (H : trace (run nominal notebook 0) =
              firstn 63 (trace (run nominal notebook 0)) ++
              (ECall "torch.optim.AdamW"
                 [OList [ORef 177; ORef 179]; OFloat 1 (-4)]
                 [("weight_decay", OFloat 9 (-5))], inr (ORef 189)) ::
              skipn 64 (trace (run nominal notebook 0)))
    by (vm_compute; reflexivity).
  split; [exact H|].
  destruct (optimizer_parameters_require_grad nat nominal 0 _ _ _ _ _ H)
    as (ps & Hargs & _ & _ & Htrue & _).
  injection Hargs as <-. apply Htrue.
  intros p flag Hin.
  assert (Hall : Forall (fun en =>
                           forall q, fst en = EGetAttr q "requires_grad" ->
                                     exists b, snd en = inr (OBool b))
                        (firstn 63 (trace (run nominal notebook 0)))).
  { vm_compute.
    repeat (apply Forall_cons;
            [intros q Hq; first [discriminate Hq | eexists; reflexivity]|]).
    apply Forall_nil. }
  rewrite Forall_forall in Hall.
  destruct (Hall _ Hin p eq_refl) as [b Hb].
  exists b. simpl in Hb. now injection Hb.
Defined.

End NotebookSpec.

(** ** The notebook: more statements *)

Module NotebookMore.
Import Python Notebook Observe History RunFacts NotebookViews NotebookChecks
  NotebookFacts HistoryFacts NotebookFlow.
Local Open Scope py_scope.

(** *** The device *)

(** X1.  Whenever [torch.device] is called, [torch.cuda.is_available()]
    was called before and answered; the device is ['cuda'] when that
    answer was found true and ['cpu'] when it was found false. *)
Theorem device_follows_availability W (ext : External W) (w : W)
  before args kw resp rest :
  trace (run ext notebook w) =
    before ++ (ECall "torch.device" args kw, resp) :: rest ->
  exists available,
    In (ECall "torch.cuda.is_available" [] [], inr available) before /\
    kw = [] /\
    ((holds before available /\ args = [OStr "cuda"]) \/
     (fails before available /\ args = [OStr "cpu"])).
Proof.
  intro Heq.
  exact (run_checked device_check notebook notebook_device_checked W ext w
           before _ resp rest Heq args kw eq_refl).
Qed.

(** In the nominal world CUDA is not available and the device is the
    CPU. *)
Lemma device_follows_availability_witness :
  trace (run nominal notebook 0) =
    firstn 15 (trace (run nominal notebook 0)) ++
    (ECall "torch.device" [OStr "cpu"] [], inr (ORef 45)) ::
    skipn 16 (trace (run nominal notebook 0)) /\
  exists available,
    In (ECall "torch.cuda.is_available" [] [], inr available)
       (firstn 15 (trace (run nominal notebook 0))).
Proof.
  assert (H : trace (run nominal notebook 0) =
              firstn 15 (trace (run nominal notebook 0)) ++
              (ECall "torch.device" [OStr "cpu"] [], inr (ORef 45)) ::
              skipn 16 (trace (run nominal notebook 0)))
    by (vm_compute; reflexivity).
  split; [exact H|].
  destruct (device_follows_availability nat nominal 0 _ _ _ _ _ H)
    as (available & Hin & _).
  exists available. exact Hin.
Defined.

(** *** The parameters of the optimizer, again *)

(** X2.  Whenever [torch.optim.AdamW] is called, it is called on
    parameters of a model that [zsl.models.ZeroShot] built: on the items
    [parameters()] yielded, in the order it yielded them, with none left
    out whose [requires_grad] only ever read [True]; the learning rate is
    1e-4 and the weight decay 9e-5. *)
Theorem optimizer_gets_the_trainable_parameters W (ext : External W) (w : W)
  before args kw resp rest :
  trace (run ext notebook w) =
    before ++ (ECall "torch.optim.AdamW" args kw, resp) :: rest ->
  exists visual_fe semantic_unit zs_model all items parameters,
    args = [OList parameters; OFloat 1 (-4)] /\
    kw = [("weight_decay", OFloat 9 (-5))] /\
    In (zs_model_call visual_fe semantic_unit, inr zs_model) before /\
    In (EMethod zs_model "parameters" [] [], inr all) before /\
    yields before all items /\
    subsequence parameters items /\
    (forall p,
       In p items ->
       (forall flag,
          In (EGetAttr p "requires_grad", inr flag) before ->
          flag = OBool true) ->
       In p parameters).
Proof.
  intro Heq.
  destruct (run_checked optimizer_check notebook notebook_optimizer_checked
              W ext w before _ resp rest Heq args kw eq_refl)
    as (vfe & su & zs_model & all & items & kept & Hcall & H).
  injection Hcall as -> ->.
  exists vfe, su, zs_model, all, items, kept. auto.
Qed.

(** In the nominal world [parameters()] yields three parameters and the
    optimizer is handed the two that are not frozen. *)
Lemma optimizer_gets_the_trainable_parameters_witness :
  trace (run nominal notebook 0) =
    firstn 63 (trace (run nominal notebook 0)) ++
    (AdamW_call [ORef 177; ORef 179], inr (ORef 189)) ::
    skipn 64 (trace (run nominal notebook 0)) /\
  exists items,
    subsequence [ORef 177; ORef 179] items.
Proof.
  assert (H : trace (run nominal notebook 0) =
              firstn 63 (trace (run nominal notebook 0)) ++
              (AdamW_call [ORef 177; ORef 179], inr (ORef 189)) ::
              skipn 64 (trace (run nominal notebook 0)))
    by (vm_compute; reflexivity).
  split; [exact H|].
  destruct (optimizer_gets_the_trainable_parameters nat nominal 0
              _ _ _ _ _ H)
    as (vfe & su & zs_model & all & items & kept & Hargs & _ & _ & _ & _ &
        Hsub & _).
  injection Hargs as <-. exists items. exact Hsub.
Defined.

(** *** Imports *)

(** X3.  In every run, a call through a name that an import binds
    ([torch], [F], [zoo], [sys], [DataLoader], [zsl]) comes after that
    import has completed, and [import zsl] comes after
    [sys.path.append('..')] has completed. *)
Theorem imports_precede_use W (ext : External W) (w : W)
  before e resp rest :
  trace (run ext notebook w) = before ++ (e, resp) :: rest ->
  (forall f args kw module,
     e = ECall f args kw -> binder_of f = Some module ->
     exists v, In (EImport module, inr v) before) /\
  (e = EImport "zsl" ->
   exists v, In (ECall "sys.path.append" [OStr ".."] [], inr v) before).
Proof.
  intro Heq.
  pose proof (run_checked import_check notebook notebook_imports_checked
                W ext w before e resp rest Heq) as Hcheck.
  split.
  - intros f args kw module -> Hb. simpl in Hcheck. now rewrite Hb in Hcheck.
  - intros ->. exact Hcheck.
Qed.

(** In the nominal world the first call of [zsl.engine.train_epoch] comes
    after [import zsl]. *)
Lemma imports_precede_use_witness :
  trace (run nominal notebook 0) =
    firstn 66 (trace (run nominal notebook 0)) ++
    (train_epoch_call (ORef 129) (ORef 75) (ORef 189) 0 (ORef 45),
     inr (ORef 198)) ::
    skipn 67 (trace (run nominal notebook 0)) /\
  exists v,
    In (EImport "zsl", inr v) (firstn 66 (trace (run nominal notebook 0))).
Proof.
  assert (H : trace (run nominal notebook 0) =
              firstn 66 (trace (run nominal notebook 0)) ++
              (train_epoch_call (ORef 129) (ORef 75) (ORef 189) 0 (ORef 45),
               inr (ORef 198)) ::
              skipn 67 (trace (run nominal notebook 0)))
    by (vm_compute; reflexivity).
  split; [exact H|].
  exact (proj1 (imports_precede_use nat nominal 0 _ _ _ _ H)
           "zsl.engine.train_epoch" _ _ "zsl" eq_refl eq_refl).
Defined.

(** *** What the engine is handed *)

(** X4.  A run that reaches the engine splits into what came before the
    first engine call and the engine calls.  Before the first engine call
    the device was chosen by [torch.device], the model was built by
    [zsl.models.ZeroShot] and moved with [zs_model.to(device)], and the
    optimizer was built by [torch.optim.AdamW] (learning rate 1e-4, weight
    decay 9e-5) over items that [zs_model.parameters()] yielded, in their
    order.  Every operation after that is [train_epoch] or [evaluate] with
    the keyword arguments of lines 423-429: each is handed that model (the
    object itself, not what [to] returned) and that device, and
    [train_epoch] that optimizer and an epoch from 0 to 7. *)
Theorem training_uses_what_was_set_up W (ext : External W) (w : W) :
  view engine_call (trace (run ext notebook w)) <> [] ->
  exists zs_model train_dl valid_dl optimizer device semantic_repr
         device_name visual_fe semantic_unit moved all items parameters
         pre loop,
    trace (run ext notebook w) = pre ++ loop /\
    view engine_call pre = [] /\
    loop <> [] /\
    In (ECall "torch.device" [OStr device_name] [], inr device) pre /\
    In (ECall "zsl.models.ZeroShot" [visual_fe; semantic_unit] [],
        inr zs_model) pre /\
    In (EMethod zs_model "to" [device] [], inr moved) pre /\
    In (EMethod zs_model "parameters" [] [], inr all) pre /\
    yields pre all items /\
    subsequence parameters items /\
    In (ECall "torch.optim.AdamW" [OList parameters; OFloat 1 (-4)]
          [("weight_decay", OFloat 9 (-5))], inr optimizer) pre /\
    (forall e r,
       In (e, r) loop ->
       (exists epoch,
          (0 <= epoch < 8)%Z /\
          e = ECall "zsl.engine.train_epoch" []
                [("model", zs_model); ("dl", train_dl);
                 ("optimizer", optimizer); ("epoch", OInt epoch);
                 ("print_freq", OInt 300); ("device", device)]) \/
       e = ECall "zsl.engine.evaluate" []
             [("model", zs_model); ("dl", valid_dl);
              ("class_representations", semantic_repr);
              ("device", device)]).
Proof.
  intro Hsome.
  destruct (engine_reached W ext w Hsome)
    as (zs_model & train_dl & valid_dl & valid_ds & optimizer & device &
        attr_matrix & semantic_repr & loop & Hs & Ht & Hloop & Hpre).
  destruct (setup_flow W ext w _ _ _ _ _ _ Hs)
    as (device_name & train_ds & visual_fe & semantic_unit & moved & all &
        items & parameters & Hdev & _ & _ & _ & _ & Hzs & Hto & Hall &
        Hitems & Hsub & Hopt).
  exists zs_model, train_dl, valid_dl, optimizer, device, semantic_repr,
    device_name, visual_fe, semantic_unit, moved, all, items, parameters,
    (trace (run ext setup w) ++
     [(EGetAttr valid_ds "attr_matrix", inr attr_matrix);
      (ECall "torch.FloatTensor" [attr_matrix] [], inr semantic_repr)]),
    loop.
  split; [rewrite Ht, <- app_assoc; reflexivity|].
  split.
  { rewrite view_app.
    rewrite (silent engine_call setup setup_engine_silent W ext w).
    reflexivity. }
  split; [exact Hloop|].
  repeat match goal with
         | |- In _ _ /\ _ => split; [in_hist|]
         | |- yields _ _ _ /\ _ => split; [now apply yields_app_l|]
         | |- subsequence _ _ /\ _ => split; [exact Hsub|]
         end.
  intros e r Hin.
  destruct (loop_events loop _ _ _ _ _ _ _ Hpre e r Hin)
    as [(epoch & Hepoch & ->)| ->]; [left | now right].
  exists epoch. split; [exact (in_range epoch EPOCHS Hepoch) | reflexivity].
Qed.

(** The nominal world reaches the engine, with the model, the optimizer
    and the device built before. *)
Lemma training_uses_what_was_set_up_witness :
  view engine_call (trace (run nominal notebook 0)) <> [] /\
  exists zs_model all parameters optimizer (pre : Trace),
    In (EMethod zs_model "parameters" [] [], inr all) pre /\
    In (ECall "torch.optim.AdamW" [OList parameters; OFloat 1 (-4)]
          [("weight_decay", OFloat 9 (-5))], inr optimizer) pre.
Proof.
  assert (H : view engine_call (trace (run nominal notebook 0)) <> [])
    by (vm_compute; discriminate).
  split; [exact H|].
  destruct (training_uses_what_was_set_up nat nominal 0 H)
    as (zs_model & train_dl & valid_dl & optimizer & device & semantic_repr &
        device_name & visual_fe & semantic_unit & moved & all & items &
        parameters & pre & loop & Ht & _ & _ & _ & _ & _ & Hall & _ & _ &
        Hopt & _).
  exists zs_model, all, parameters, optimizer, pre.
  split; [exact Hall | exact Hopt].
Defined.

(** *** The loop, for any number of epochs *)

(** X5.  For any value of [EPOCHS], every run of the loop performs an
    initial segment of [train_epoch(epoch=0)], [evaluate],
    [train_epoch(epoch=1)], [evaluate], ..., [train_epoch(epoch=EPOCHS-1)],
    [evaluate] and nothing else: the call number [2k] is [train_epoch]
    with [epoch=k], the call after it [evaluate], and every call carries
    the keyword arguments of lines 423-429.  A run that completes performs
    all of them, two calls per epoch; and when [EPOCHS] is zero or
    negative the loop performs nothing and completes. *)
Theorem epoch_loop_any_epochs (epochs : Z)
  (zs_model train_dl valid_dl optimizer device semantic_repr : Obj)
  W (ext : External W) (w : W) :
  let loop :=
    run ext (epoch_loop epochs zs_model train_dl valid_dl optimizer device
               semantic_repr) w in
  let calls :=
    flat_map
      (fun k =>
         [ECall "zsl.engine.train_epoch" []
            [("model", zs_model); ("dl", train_dl); ("optimizer", optimizer);
             ("epoch", OInt (Z.of_nat k)); ("print_freq", OInt 300);
             ("device", device)];
          ECall "zsl.engine.evaluate" []
            [("model", zs_model); ("dl", valid_dl);
             ("class_representations", semantic_repr); ("device", device)]])
      (seq 0 (Z.to_nat epochs)) in
  prefix (map fst (trace loop)) calls /\
  (forall r,
     result loop = inr r ->
     map fst (trace loop) = calls /\
     List.length (trace loop) = 2 * Z.to_nat epochs) /\
  ((epochs <= 0)%Z -> loop = mkOutcome (inr tt) w []).
Proof.
  cbv zeta.
  destruct (epoch_loop_calls epochs zs_model train_dl valid_dl optimizer
              device semantic_repr W ext w) as [Hpre Hall].
  rewrite view_every in Hpre, Hall.
  rewrite loop_calls_range in Hpre, Hall.
  split; [exact Hpre|]. split.
  - intros r Hr. split; [exact (Hall r Hr)|].
    rewrite <- (length_map fst), (Hall r Hr).
    rewrite <- (loop_calls_range epochs zs_model train_dl valid_dl optimizer
                  device semantic_repr).
    rewrite loop_calls_length. now rewrite range_length.
  - intro Hle. unfold epoch_loop, range.
    assert (Hz : Z.to_nat epochs = 0) by lia. rewrite Hz. reflexivity.
Qed.

(** X6.  For any value of [EPOCHS] and in every run of the loop, also one
    that an exception cuts short, [evaluate] has been called at most as
    often as [train_epoch] and at least one time less often: no
    evaluation runs before the training of its epoch has returned.  In a
    run that completes both have been called once per epoch. *)
Theorem evaluation_follows_training (epochs : Z)
  (zs_model train_dl valid_dl optimizer device semantic_repr : Obj)
  W (ext : External W) (w : W) :
  count is_evaluate
    (trace (run ext (epoch_loop epochs zs_model train_dl valid_dl
                       optimizer device semantic_repr) w)) <=
  count is_train_epoch
    (trace (run ext (epoch_loop epochs zs_model train_dl valid_dl
                       optimizer device semantic_repr) w)) <=
  count is_evaluate
    (trace (run ext (epoch_loop epochs zs_model train_dl valid_dl
                       optimizer device semantic_repr) w)) + 1 /\
  (forall r,
     result (run ext (epoch_loop epochs zs_model train_dl valid_dl
                        optimizer device semantic_repr) w) = inr r ->
     count is_train_epoch
       (trace (run ext (epoch_loop epochs zs_model train_dl valid_dl
                          optimizer device semantic_repr) w)) =
       Z.to_nat epochs /\
     count is_evaluate
       (trace (run ext (epoch_loop epochs zs_model train_dl valid_dl
                          optimizer device semantic_repr) w)) =
       Z.to_nat epochs).
Proof.
  destruct (epoch_loop_calls epochs zs_model train_dl valid_dl optimizer
              device semantic_repr W ext w) as [Hpre Hall].
  rewrite view_every in Hpre, Hall. unfold count. split.
  - exact (count_loop_prefix _ _ _ _ _ _ _ _ Hpre).
  - intros r Hr. rewrite (Hall r Hr), <- range_length.
    apply count_loop_all.
Qed.

(** *** The first sample *)

(** X7.  The cell of lines 124-126 completes only when indexing the
    dataset at 0 yielded exactly three items; it binds them, in order, to
    [features], [target] and [semantic], and it has used [target] to
    index [ds.classes]. *)
Theorem sample_is_a_triple W (ext : External W) (w : W)
  ds features target semantic :
  result (run ext (cell_sample ds) w) = inr (features, target, semantic) ->
  exists item classes name,
    In (EGetItem ds (OInt 0), inr item)
       (trace (run ext (cell_sample ds) w)) /\
    yields (trace (run ext (cell_sample ds) w)) item
      [features; target; semantic] /\
    In (EGetAttr ds "classes", inr classes)
       (trace (run ext (cell_sample ds) w)) /\
    In (EGetItem classes target, inr name)
       (trace (run ext (cell_sample ds) w)).
Proof.
  intro H. unfold cell_sample, getitem, getattr, print, call in *.
  success_step. success_step.
  apply unpack3_yields in Hp0.
  repeat success_step.
  match goal with
  | I : trace (run _ (perform (EGetItem ds _)) _) = [(_, inr ?item)],
    C : trace (run _ (perform (EGetAttr ds _)) _) = [(_, inr ?classes)],
    N : trace (run _ (perform (EGetItem ?classes _)) _) = [(_, inr ?name)]
    |- _ => exists item, classes, name; rewrite I, C, N
  end.
  split; [in_hist|]. split; [|split; in_hist].
  apply yields_app_r, yields_app_l. eassumption.
Qed.

(** In the nominal world the first sample is a triple. *)
Lemma sample_is_a_triple_witness :
  result (run nominal (cell_sample (ORef 48)) 51) =
    inr (ORef 51, OInt 7, ORef 52) /\
  exists item,
    yields (trace (run nominal (cell_sample (ORef 48)) 51)) item
      [ORef 51; OInt 7; ORef 52].
Proof.
  assert (H : result (run nominal (cell_sample (ORef 48)) 51) =
              inr (ORef 51, OInt 7, ORef 52)) by (vm_compute; reflexivity).
  split; [exact H|].
  destruct (sample_is_a_triple nat nominal 51 _ _ _ _ H)
    as (item & classes & name & _ & Hy & _).
  exists item. exact Hy.
Defined.

(** X8.  When indexing the dataset at 0 yields a tuple or a list that
    does not have exactly three items, the cell of lines 124-126 ends
    there with a [ValueError]: the indexing is its only operation, and
    the message says that there were not enough values, with their
    number, or too many. *)
Theorem sample_of_other_length_raises W (ext : External W) (w w1 : W)
  ds item items :
  ext (EGetItem ds (OInt 0)) w = (inr item, w1) ->
  item = OTuple items \/ item = OList items ->
  List.length items <> 3 ->
  exists msg,
    run ext (cell_sample ds) w =
      mkOutcome (inl (ValueError msg)) w1
        [(EGetItem ds (OInt 0), inr item)] /\
    (List.length items < 3 ->
     msg = ("not enough values to unpack (expected 3, got " ++
            decimal (List.length items) ++ ")")%string) /\
    (3 < List.length items ->
     msg = "too many values to unpack (expected 3)").
Proof.
  intros Hext Hitem Hlen.
  unfold cell_sample, getitem. rewrite run_bind, run_perform, Hext.
  unfold then_run; cbn [result world trace fst snd].
  rewrite run_bind. unfold then_run.
  assert (Hrun : run ext (unpack3 item) w1 =
                 run ext (match items with
                          | [a; b; c] => Ret (a, b, c)
                          | _ => unpack_error 3 (List.length items)
                          end) w1)
    by (destruct Hitem as [-> | ->]; reflexivity).
  rewrite Hrun.
  destruct items as [|a [|b [|c [|d l]]]]; simpl in Hlen; try lia;
    (eexists; split; [reflexivity|]; split; simpl; intro; try lia;
     reflexivity).
Qed.

(** The world in which indexing yields pairs. *)
Lemma sample_of_other_length_raises_witness :
  pairs (EGetItem (ORef 48) (OInt 0)) 51 =
    (inr (OTuple [ORef 51; OInt 7]), 54) /\
  result (run pairs (cell_sample (ORef 48)) 51) =
    inl (ValueError "not enough values to unpack (expected 3, got 2)").
Proof.
  assert (H : pairs (EGetItem (ORef 48) (OInt 0)) 51 =
              (inr (OTuple [ORef 51; OInt 7]), 54)) by reflexivity.
  split; [exact H|].
  destruct (sample_of_other_length_raises nat pairs 51 54 (ORef 48)
              (OTuple [ORef 51; OInt 7]) [ORef 51; OInt 7] H
              (or_introl eq_refl))
    as (msg & Hrun & Hmsg & _).
  - simpl. lia.
  - rewrite Hrun. simpl. rewrite Hmsg; [reflexivity | simpl; lia].
Defined.

(** *** What the notebook calls *)

(** X9.  In every run, each import, call of a function by name, method
    call and attribute read of the notebook is one of those its lines
    name: 6 imports; 20 functions, of which [range] (line 422) is
    evaluated by the interpreter and shows in no run; the methods
    [features], [view], [size], [unsqueeze], [to] and [parameters]; and
    the attributes [classes], [shape], [attrs], [requires_grad] and
    [attr_matrix].  In particular the notebook itself never calls
    [backward], [step] or [zero_grad] on anything: every gradient step
    happens inside [zsl.engine].  None of the names is idle: a run that
    completes has imported each of the 6 modules and called each of the
    other 19 functions. *)
Theorem notebook_performs_only_what_it_names W (ext : External W) (w : W) :
  let imports :=
    ["torch"; "torch.nn.functional"; "torchvision.models"; "sys";
     "torch.utils.data"; "zsl"] in
  let functions :=
    ["torch.randn"; "zoo.densenet121"; "F.adaptive_avg_pool2d"; "print";
     "sys.path.append"; "torch.cuda.is_available"; "torch.device";
     "zsl.data.AwAFeaturesDataset"; "DataLoader"; "len";
     "zsl.models.LinearSemanticUnit"; "zsl.models.Identity";
     "torch.FloatTensor"; "zsl.models.ZeroShot"; "iter"; "next";
     "torch.optim.AdamW"; "zsl.engine.train_epoch"; "zsl.engine.evaluate"] in
  (forall e r,
     In (e, r) (trace (run ext notebook w)) ->
     match e with
     | EImport module => In module imports
     | ECall f _ _ => In f ("range" :: functions)
     | EMethod _ name _ _ =>
         In name ["features"; "view"; "size"; "unsqueeze"; "to";
                  "parameters"] /\
         name <> "backward" /\ name <> "step" /\ name <> "zero_grad"
     | EGetAttr _ a =>
         In a ["classes"; "shape"; "attrs"; "requires_grad"; "attr_matrix"]
     | EApply _ _ _ | EGetItem _ _ | EIter _ | ETruth _ => True
     end) /\
  (forall r,
     result (run ext notebook w) = inr r ->
     (forall module,
        In module imports ->
        exists v, In (EImport module, v) (trace (run ext notebook w))) /\
     (forall f,
        In f functions ->
        exists args kw v,
          In (ECall f args kw, v) (trace (run ext notebook w)))).
Proof.
  cbv zeta. split.
  - intros e r Hin.
    pose proof (silent unlisted notebook notebook_unlisted_silent W ext w)
      as Hs.
    apply view_nil_forall in Hs. rewrite Forall_forall in Hs.
    specialize (Hs _ Hin). unfold unlisted in Hs. cbn [fst] in Hs.
    destruct (listed e) eqn:Hl; [clear Hs | discriminate Hs].
    destruct e; cbn [listed] in Hl; trivial;
      unfold among in Hl; apply existsb_exists in Hl as (known & Hknown & Heq);
      apply String.eqb_eq in Heq; subst known.
    + exact Hknown.
    + simpl in Hknown. simpl. tauto.
    + split; [exact Hknown|]. simpl in Hknown.
      repeat split; intros ->;
        repeat (destruct Hknown as [Hknown|Hknown]; [discriminate Hknown|]);
        exact Hknown.
    + exact Hknown.
  - intros r Hr.
    destruct (notebook_names W ext w) as [_ Hnames].
    specialize (Hnames r Hr). split.
    + intros module Hm.
      assert (Hin : In (inl module)
                       (view name_of (trace (run ext notebook w)))).
      { rewrite Hnames. simpl in Hm.
        repeat (destruct Hm as [<-|Hm]; [vm_compute; tauto|]).
        destruct Hm. }
      apply in_view_inv in Hin as (e & v & Hin & He).
      apply name_of_import in He as ->. now exists v.
    + intros f Hf.
      assert (Hin : In (inr f)
                       (view name_of (trace (run ext notebook w)))).
      { rewrite Hnames. simpl in Hf.
        repeat (destruct Hf as [<-|Hf]; [vm_compute; tauto|]).
        destruct Hf. }
      apply in_view_inv in Hin as (e & v & Hin & He).
      apply name_of_call in He as (args & kw & ->). now exists args, kw, v.
Qed.

(** *** The forward passes of the notebook *)

(** X10.  Whatever the notebook calls on two arguments is the model that
    [zsl.models.ZeroShot] built, and it calls it in two ways only.  On
    lines 227-229 it calls it on the first sample of the dataset: on the
    features, unsqueezed, and on the attribute vector, converted by
    [torch.FloatTensor] twice (lines 205 and 229) and unsqueezed.  On
    lines 259-261 it calls it on the first batch of the training loader,
    with the features and the attribute vectors (the first and the third
    item of the batch) moved to the very device the model was moved to
    before. *)
Theorem forward_passes W (ext : External W) (w : W)
  before m f s kw resp rest :
  trace (run ext notebook w) =
    before ++ (EApply m [f; s] kw, resp) :: rest ->
  kw = [] /\
  (exists visual_fe semantic_unit,
     In (ECall "zsl.models.ZeroShot" [visual_fe; semantic_unit] [], inr m)
        before) /\
  ((exists ds item features target raw semantic again,
      In (EGetItem ds (OInt 0), inr item) before /\
      yields before item [features; target; raw] /\
      In (ECall "torch.FloatTensor" [raw] [], inr semantic) before /\
      In (ECall "torch.FloatTensor" [semantic] [], inr again) before /\
      In (EMethod features "unsqueeze" [OInt 0] [], inr f) before /\
      In (EMethod again "unsqueeze" [OInt 0] [], inr s) before) \/
   (exists train_ds train_dl it batch features labels semantics
           device_name device moved,
      In (ECall "DataLoader" [train_ds]
            [("shuffle", OBool true); ("batch_size", OInt 64);
             ("collate_fn", OGlobal "zsl.utils.collate_image_folder")],
          inr train_dl) before /\
      In (ECall "iter" [train_dl] [], inr it) before /\
      In (ECall "next" [it] [], inr batch) before /\
      yields before batch [features; labels; semantics] /\
      In (ECall "torch.device" [OStr device_name] [], inr device) before /\
      In (EMethod m "to" [device] [], inr moved) before /\
      In (EMethod features "to" [device] [], inr f) before /\
      In (EMethod semantics "to" [device] [], inr s) before)).
Proof.
  intro Heq.
  exact (run_checked forward_check notebook notebook_forward_checked W ext w
           before _ resp rest Heq m f s kw eq_refl).
Qed.

(** In the nominal world the first call of the model is the one on the
    first sample, and the model is the one [zsl.models.ZeroShot] built. *)
Lemma forward_passes_witness :
  trace (run nominal notebook 0) =
    firstn 47 (trace (run nominal notebook 0)) ++
    (EApply (ORef 129) [ORef 132; ORef 138] [],
     inr (OTuple [ORef 141; ORef 142])) ::
    skipn 48 (trace (run nominal notebook 0)) /\
  exists visual_fe semantic_unit,
    In (ECall "zsl.models.ZeroShot" [visual_fe; semantic_unit] [],
        inr (ORef 129))
       (firstn 47 (trace (run nominal notebook 0))).
Proof.
  assert (H : trace (run nominal notebook 0) =
              firstn 47 (trace (run nominal notebook 0)) ++
              (EApply (ORef 129) [ORef 132; ORef 138] [],
               inr (OTuple [ORef 141; ORef 142])) ::
              skipn 48 (trace (run nominal notebook 0)))
    by (vm_compute; reflexivity).
  split; [exact H|].
  exact (proj1 (proj2 (forward_passes nat nominal 0 _ _ _ _ _ _ _ H))).
Defined.

(** *** Evaluation and its dataset *)

(** X11.  Whenever [evaluate] is called, it is called with the keyword
    arguments of lines 427-429, and its loader and its class
    representations come from one dataset: [dl] is the loader that
    [DataLoader] built over [valid_ds] (batch size 32, no shuffling), and
    [class_representations] is [torch.FloatTensor] of the [attr_matrix] of
    that same [valid_ds], the dataset constructed with
    [load_unseen=True, load_only_unseen=True]. *)
Theorem evaluation_matches_its_dataset W (ext : External W) (w : W)
  args kw resp :
  In (ECall "zsl.engine.evaluate" args kw, resp)
     (trace (run ext notebook w)) ->
  exists zs_model valid_dl valid_ds device attr_matrix semantic_repr
         pre loop,
    trace (run ext notebook w) =
      pre ++
      (EGetAttr valid_ds "attr_matrix", inr attr_matrix) ::
      (ECall "torch.FloatTensor" [attr_matrix] [], inr semantic_repr) ::
      loop /\
    view engine_call pre = [] /\
    In (ECall "zsl.data.AwAFeaturesDataset"
          [OStr "../data/AwA2/Animals_with_Attributes2"]
          [("features_type", OStr "ResNet101"); ("load_unseen", OBool true);
           ("load_only_unseen", OBool true)],
        inr valid_ds) pre /\
    In (ECall "DataLoader" [valid_ds]
          [("batch_size", OInt 32);
           ("collate_fn", OGlobal "zsl.utils.collate_image_folder")],
        inr valid_dl) pre /\
    args = [] /\
    kw = [("model", zs_model); ("dl", valid_dl);
          ("class_representations", semantic_repr); ("device", device)].
Proof.
  intro Hin.
  assert (Hsome : view engine_call (trace (run ext notebook w)) <> []).
  { intro Hnil.
    apply (in_view engine_call _ _ _ (ECall "zsl.engine.evaluate" args kw))
      in Hin; [|now left].
    rewrite Hnil in Hin. destruct Hin. }
  destruct (engine_reached W ext w Hsome)
    as (zs_model & train_dl & valid_dl & valid_ds & optimizer & device &
        attr_matrix & semantic_repr & loop & Hs & Ht & _ & Hpre).
  destruct (setup_flow W ext w _ _ _ _ _ _ Hs)
    as (device_name & train_ds & visual_fe & semantic_unit & moved & all &
        items & parameters & _ & _ & Hds & _ & Hdl & _).
  pose proof (silent engine_call setup setup_engine_silent W ext w) as Hsil.
  exists zs_model, valid_dl, valid_ds, device, attr_matrix, semantic_repr,
    (trace (run ext setup w)), loop.
  split; [exact Ht|]. split; [exact Hsil|]. split; [exact Hds|].
  split; [exact Hdl|].
  rewrite Ht in Hin.
  apply engine_call_in_loop in Hin; try reflexivity; [|exact Hsil].
  destruct (loop_events loop _ _ _ _ _ _ _ Hpre _ _ Hin)
    as [(epoch & _ & Heq)|Heq].
  - discriminate Heq.
  - injection Heq as -> ->. split; reflexivity.
Qed.

(** In the nominal world the second engine call is an [evaluate], over
    the loader of the dataset of unseen classes. *)
Lemma evaluation_matches_its_dataset_witness :
  In (ECall "zsl.engine.evaluate" []
        [("model", ORef 129); ("dl", ORef 78);
         ("class_representations", ORef 195); ("device", ORef 45)],
      inr (ORef 201))
     (trace (run nominal notebook 0)) /\
  exists valid_ds (pre : Trace),
    In (ECall "DataLoader" [valid_ds]
          [("batch_size", OInt 32);
           ("collate_fn", OGlobal "zsl.utils.collate_image_folder")],
        inr (ORef 78)) pre.
Proof.
  assert (H : In (ECall "zsl.engine.evaluate" []
                    [("model", ORef 129); ("dl", ORef 78);
                     ("class_representations", ORef 195);
                     ("device", ORef 45)],
                  inr (ORef 201))
                 (trace (run nominal notebook 0))).
  { apply (nth_error_In _ 67). vm_compute. reflexivity. }
  split; [exact H|].
  destruct (evaluation_matches_its_dataset nat nominal 0 _ _ _ H)
    as (zs_model & valid_dl & valid_ds & device & attr_matrix &
        semantic_repr & pre & loop & _ & _ & _ & Hdl & _ & Hkw).
  injection Hkw as _ <- _ _.
  exists valid_ds, pre. exact Hdl.
Defined.

(** X12.  Whenever [train_epoch] is called, it is called with the keyword
    arguments of lines 423-425: the epoch is one of 0 to 7, [print_freq]
    is 300, and [dl] is the loader that [DataLoader] built, before the
    first engine call, over [train_ds] (shuffled, batch size 64), the
    dataset constructed with [load_unseen=False]. *)
Theorem training_matches_its_dataset W (ext : External W) (w : W)
  args kw resp :
  In (ECall "zsl.engine.train_epoch" args kw, resp)
     (trace (run ext notebook w)) ->
  exists zs_model train_ds train_dl optimizer device epoch pre loop,
    trace (run ext notebook w) = pre ++ loop /\
    view engine_call pre = [] /\
    In (ECall "zsl.data.AwAFeaturesDataset"
          [OStr "../data/AwA2/Animals_with_Attributes2"]
          [("features_type", OStr "ResNet101"); ("load_unseen", OBool false)],
        inr train_ds) pre /\
    In (ECall "DataLoader" [train_ds]
          [("shuffle", OBool true); ("batch_size", OInt 64);
           ("collate_fn", OGlobal "zsl.utils.collate_image_folder")],
        inr train_dl) pre /\
    (0 <= epoch < 8)%Z /\
    args = [] /\
    kw = [("model", zs_model); ("dl", train_dl); ("optimizer", optimizer);
          ("epoch", OInt epoch); ("print_freq", OInt 300);
          ("device", device)].
Proof.
  intro Hin.
  assert (Hsome : view engine_call (trace (run ext notebook w)) <> []).
  { intro Hnil.
    apply (in_view engine_call _ _ _
             (ECall "zsl.engine.train_epoch" args kw))
      in Hin; [|now left].
    rewrite Hnil in Hin. destruct Hin. }
  destruct (engine_reached W ext w Hsome)
    as (zs_model & train_dl & valid_dl & valid_ds & optimizer & device &
        attr_matrix & semantic_repr & loop & Hs & Ht & _ & Hpre).
  destruct (setup_flow W ext w _ _ _ _ _ _ Hs)
    as (device_name & train_ds & visual_fe & semantic_unit & moved & all &
        items & parameters & _ & Hds & _ & Hdl & _).
  pose proof (silent engine_call setup setup_engine_silent W ext w) as Hsil.
  rewrite Ht in Hin.
  apply engine_call_in_loop in Hin; try reflexivity; [|exact Hsil].
  destruct (loop_events loop _ _ _ _ _ _ _ Hpre _ _ Hin)
    as [(epoch & Hepoch & Heq)|Heq]; [|discriminate Heq].
  injection Heq as -> ->.
  exists zs_model, train_ds, train_dl, optimizer, device, epoch,
    (trace (run ext setup w) ++
     [(EGetAttr valid_ds "attr_matrix", inr attr_matrix);
      (ECall "torch.FloatTensor" [attr_matrix] [], inr semantic_repr)]),
    loop.
  split; [rewrite Ht, <- app_assoc; reflexivity|].
  split; [rewrite view_app, Hsil; reflexivity|].
  split; [in_hist|]. split; [in_hist|].
  split; [exact (in_range epoch EPOCHS Hepoch)|]. split; reflexivity.
Qed.

(** In the nominal world the first engine call is [train_epoch] with
    [epoch=0], over the loader of the training dataset. *)
Lemma training_matches_its_dataset_witness :
  In (ECall "zsl.engine.train_epoch" []
        [("model", ORef 129); ("dl", ORef 75); ("optimizer", ORef 189);
         ("epoch", OInt 0); ("print_freq", OInt 300); ("device", ORef 45)],
      inr (ORef 198))
     (trace (run nominal notebook 0)) /\
  exists train_ds (pre : Trace),
    In (ECall "DataLoader" [train_ds]
          [("shuffle", OBool true); ("batch_size", OInt 64);
           ("collate_fn", OGlobal "zsl.utils.collate_image_folder")],
        inr (ORef 75)) pre.
Proof.
  assert (H : In (ECall "zsl.engine.train_epoch" []
                    [("model", ORef 129); ("dl", ORef 75);
                     ("optimizer", ORef 189); ("epoch", OInt 0);
                     ("print_freq", OInt 300); ("device", ORef 45)],
                  inr (ORef 198))
                 (trace (run nominal notebook 0))).
  { apply (nth_error_In _ 66). vm_compute. reflexivity. }
  split; [exact H|].
  destruct (training_matches_its_dataset nat nominal 0 _ _ _ H)
    as (zs_model & train_ds & train_dl & optimizer & device & epoch & pre &
        loop & _ & _ & _ & Hdl & _ & _ & Hkw).
  injection Hkw as _ <- _ _ _.
  exists train_ds, pre. exact Hdl.
Defined.

(** *** The two modules *)

(** X13.  Whenever [zsl.models.LinearSemanticUnit] is called, it is called
    with [out_features=1024] and with [in_features] the length of the
    [attrs] of the training dataset, the one constructed with
    [load_unseen=False]; whenever [zsl.models.Identity] is called, its
    argument is [features.size(0)] for the features of the first sample,
    the first of the three items that [ds[0]] yielded (lines 184-187). *)
Theorem modules_follow_the_data W (ext : External W) (w : W)
  before e resp rest :
  trace (run ext notebook w) = before ++ (e, resp) :: rest ->
  (forall args kw, e = ECall "zsl.models.LinearSemanticUnit" args kw ->
     exists train_ds attrs n_attrs,
       args = [] /\
       kw = [("in_features", n_attrs); ("out_features", OInt 1024)] /\
       In (ECall "zsl.data.AwAFeaturesDataset"
             [OStr "../data/AwA2/Animals_with_Attributes2"]
             [("features_type", OStr "ResNet101");
              ("load_unseen", OBool false)], inr train_ds) before /\
       In (EGetAttr train_ds "attrs", inr attrs) before /\
       In (ECall "len" [attrs] [], inr n_attrs) before) /\
  (forall args kw, e = ECall "zsl.models.Identity" args kw ->
     exists ds item features target semantic size,
       args = [size] /\
       kw = [] /\
       In (ECall "zsl.data.AwAFeaturesDataset"
             [OStr "../data/AwA2/Animals_with_Attributes2"]
             [("features_type", OStr "ResNet101")], inr ds) before /\
       In (EGetItem ds (OInt 0), inr item) before /\
       yields before item [features; target; semantic] /\
       In (EMethod features "size" [OInt 0] [], inr size) before).
Proof.
  intro Heq.
  destruct (run_checked construction_check notebook
              notebook_construction_checked W ext w before e resp rest Heq)
    as (_ & Hsu & Hvfe & _).
  split; [exact Hsu | exact Hvfe].
Qed.

(** In the nominal world the training dataset has 85 attributes. *)
Lemma modules_follow_the_data_witness :
  trace (run nominal notebook 0) =
    firstn 31 (trace (run nominal notebook 0)) ++
    (ECall "zsl.models.LinearSemanticUnit" []
       [("in_features", OInt 85); ("out_features", OInt 1024)],
     inr (ORef 93)) ::
    skipn 32 (trace (run nominal notebook 0)) /\
  exists attrs,
    In (ECall "len" [attrs] [], inr (OInt 85))
       (firstn 31 (trace (run nominal notebook 0))).
Proof.
  assert (H : trace (run nominal notebook 0) =
              firstn 31 (trace (run nominal notebook 0)) ++
              (ECall "zsl.models.LinearSemanticUnit" []
                 [("in_features", OInt 85); ("out_features", OInt 1024)],
               inr (ORef 93)) ::
              skipn 32 (trace (run nominal notebook 0)))
    by (vm_compute; reflexivity).
  split; [exact H|].
  destruct (proj1 (modules_follow_the_data nat nominal 0 _ _ _ _ H)
              _ _ eq_refl)
    as (train_ds & attrs & n_attrs & _ & Hkw & _ & _ & Hlen).
  injection Hkw as <-. exists attrs. exact Hlen.
Defined.

End NotebookMore.
